(** * MSDS-frontend: the SDS generator views

    A shallow embedding of the view logic of the two React clients of the
    repository: the recursive value renderer and the section display of
    [SDSDisplay], and the request orchestration of [SDSGenerator]
    (the POST client) and [SDSForm] (the legacy GET client).

    JavaScript strings are sequences of UTF-16 code units; they are modelled
    as [list N], one [N] per code unit, so that [length], [trim],
    [startsWith] and [parseInt] see exactly what the engine sees. *)

From Stdlib Require Import ZArith NArith List Bool Lia String Ascii.
From Stdlib Require Import Sorted Permutation DecimalN.
From stdpp Require Import gmap sets.

Set Warnings "-register-all,-clear-no-such-hyp,-inconsistent-scopes".
Local Open Scope Z_scope.

(** ** Strings *)

Abbreviation jsstring := (list N) (only parsing).

(** An ASCII literal as a JavaScript string. *)
Definition str (s : string) : jsstring :=
  List.map N_of_ascii (list_ascii_of_string s).

Fixpoint uint_units (d : Decimal.uint) : jsstring :=
  match d with
  | Decimal.Nil => []
  | Decimal.D0 d => 48%N :: uint_units d
  | Decimal.D1 d => 49%N :: uint_units d
  | Decimal.D2 d => 50%N :: uint_units d
  | Decimal.D3 d => 51%N :: uint_units d
  | Decimal.D4 d => 52%N :: uint_units d
  | Decimal.D5 d => 53%N :: uint_units d
  | Decimal.D6 d => 54%N :: uint_units d
  | Decimal.D7 d => 55%N :: uint_units d
  | Decimal.D8 d => 56%N :: uint_units d
  | Decimal.D9 d => 57%N :: uint_units d
  end.

(** [String(n)] for a non-negative integer [n]: its decimal digits. *)
Definition dec (n : N) : jsstring := uint_units (N.to_uint n).

(** WhiteSpace and LineTerminator code points of ECMAScript, the characters
    [String.prototype.trim] and [parseInt] strip. *)
Definition is_whitespace (c : N) : bool :=
  existsb (N.eqb c)
    [9; 10; 11; 12; 13; 32; 160; 5760;
     8192; 8193; 8194; 8195; 8196; 8197; 8198; 8199; 8200; 8201; 8202;
     8232; 8233; 8239; 8287; 12288; 65279]%N.

Fixpoint trimStart (s : jsstring) : jsstring :=
  match s with
  | c :: s' => if is_whitespace c then trimStart s' else s
  | [] => []
  end.

Definition trimEnd (s : jsstring) : jsstring := rev (trimStart (rev s)).

Definition trim (s : jsstring) : jsstring := trimEnd (trimStart s).

Fixpoint startsWith (pat s : jsstring) : bool :=
  match pat, s with
  | [], _ => true
  | p :: pat', c :: s' => N.eqb p c && startsWith pat' s'
  | _ :: _, [] => false
  end.

(** [s.replace(pat, repl)] with a string pattern: only the first occurrence
    is replaced. *)
Fixpoint replace (pat repl s : jsstring) : jsstring :=
  if startsWith pat s then repl ++ skipn (length pat) s
  else match s with
       | [] => []
       | c :: s' => c :: replace pat repl s'
       end.

(** ** Numbers produced by [parseInt]

    [parseInt] yields [NaN] or an integer-valued double, and the difference
    of two such values is again one of these or an infinity.  A finite value
    is kept as the integer it denotes; [-0] is identified with [0], which no
    comparison against zero can tell apart. *)

Inductive Num : Type :=
| NaN
| Infinity (negative : bool)
| Finite (z : Z).

(** The double nearest to a non-negative integer (ties to even). *)
Definition round_nonneg (z : Z) : Num :=
  if z <? 2 ^ 53 then Finite z
  else
    let e := Z.log2 z - 52 in
    let q := z / 2 ^ e in
    let r := z mod 2 ^ e in
    let q' := if 2 * r <? 2 ^ e then q
              else if 2 ^ e <? 2 * r then q + 1
              else if Z.even q then q else q + 1 in
    let m := q' * 2 ^ e in
    if m <? 2 ^ 1024 then Finite m else Infinity false.

Definition negate (x : Num) : Num :=
  match x with
  | NaN => NaN
  | Infinity s => Infinity (negb s)
  | Finite z => Finite (- z)
  end.

(** The Number value of a mathematical integer. *)
Definition to_number (z : Z) : Num :=
  if z <? 0 then negate (round_nonneg (- z)) else round_nonneg z.

(** [a - b] on Numbers. *)
Definition sub (a b : Num) : Num :=
  match a, b with
  | NaN, _ | _, NaN => NaN
  | Infinity s, Infinity t => if Bool.eqb s t then NaN else Infinity s
  | Infinity s, Finite _ => Infinity s
  | Finite _, Infinity t => Infinity (negb t)
  | Finite x, Finite y => to_number (x - y)
  end.

(** ** parseInt *)

Definition digit_value (c : N) : option Z :=
  if ((48 <=? c) && (c <=? 57))%N then Some (Z.of_N c - 48)
  else if ((97 <=? c) && (c <=? 122))%N then Some (Z.of_N c - 87)
  else if ((65 <=? c) && (c <=? 90))%N then Some (Z.of_N c - 55)
  else None.

(** The longest prefix of [s] made of digits of radix [R]. *)
Fixpoint take_digits (R : Z) (s : jsstring) : list Z :=
  match s with
  | c :: s' =>
      match digit_value c with
      | Some d => if d <? R then d :: take_digits R s' else []
      | None => []
      end
  | [] => []
  end.

Definition digits_value (R : Z) (ds : list Z) : Z :=
  fold_left (fun acc d => acc * R + d) ds 0.

(** [parseInt(input)] with no radix argument: leading white space is
    skipped, a sign is read, a [0x]/[0X] prefix selects radix 16, and the
    longest digit prefix is converted; no digit at all gives [NaN]. *)
Definition parseInt (input : jsstring) : Num :=
  let s := trimStart input in
  let '(sign, s) :=
    match s with
    | 45%N :: r => (-1, r)
    | 43%N :: r => (1, r)
    | _ => (1, s)
    end in
  let '(R, s) :=
    match s with
    | 48%N :: 120%N :: r => (16, r)
    | 48%N :: 88%N :: r => (16, r)
    | _ => (10, s)
    end in
  match take_digits R s with
  | [] => NaN
  | ds => to_number (sign * digits_value R ds)
  end.

(** ** Array.prototype.sort

    [SortCompare] turns a [NaN] comparator result into [+0]; only the sign
    of the result is used.  The sort is stable (ECMAScript 2019), so for a
    consistent comparator its result is the one stable ordering, which the
    insertion sort below computes; for an inconsistent comparator the
    language leaves the order to the implementation. *)

Definition is_positive (v : Num) : bool :=
  match v with
  | NaN => false
  | Infinity s => negb s
  | Finite z => 0 <? z
  end.

Section Sort.
Context {A : Type} (comparefn : A -> A -> Num).

Fixpoint insert_sorted (x : A) (l : list A) : list A :=
  match l with
  | [] => [x]
  | y :: l' =>
      if is_positive (comparefn x y) then y :: insert_sorted x l'
      else x :: l
  end.

Definition sort (l : list A) : list A := fold_right insert_sorted [] l.
End Sort.

(** The section keys in display order (the [filter] and [sort] of lines
    436-442 of the POST client). *)
Definition section_prefix : jsstring := str "Section".

Definition compare_sections (a b : jsstring) : Num :=
  let numA := parseInt (replace section_prefix [] a) in
  let numB := parseInt (replace section_prefix [] b) in
  sub numA numB.

Definition section_order (keys : list jsstring) : list jsstring :=
  sort compare_sections (List.filter (startsWith section_prefix) keys).


(** ** Exceptions and fallible computations *)

(** The exceptions the engine itself raises; their message text is chosen
    by the engine. *)
Inductive TypeErrorKind : Type :=
| ReadPropertyOfNullish (k : jsstring)
| NotAFunction (callee : jsstring)
| NullishToObject
| NoPrimitiveValue.

(** A thrown [Error] object, as far as the code looks at it: its
    [message]. *)
Inductive Exn : Type :=
| JsError (message : jsstring).

Definition message (e : Exn) : jsstring :=
  match e with JsError m => m end.

Inductive result (A : Type) : Type :=
| Ok (a : A)
| Throw (e : Exn).
Arguments Ok {A} a.
Arguments Throw {A} e.

Notation "'let*' x ':=' m 'in' k" :=
  (match m with Ok x => k | Throw e => Throw e end)
  (at level 10, x name, m at level 100, k at level 200, only parsing).

Fixpoint sequence {A : Type} (l : list (result A)) : result (list A) :=
  match l with
  | [] => Ok []
  | m :: l' => let* a := m in let* r := sequence l' in Ok (a :: r)
  end.

(** [l.map((x, i) => f x i)]: the callback receives the element and its
    index. *)
Fixpoint mapi_from {A B : Type} (f : A -> N -> B) (i : N) (l : list A)
  : list B :=
  match l with
  | [] => []
  | x :: l' => f x i :: mapi_from f (N.succ i) l'
  end.

Definition mapi {A B : Type} (f : A -> N -> B) (l : list A) : list B :=
  mapi_from f 0%N l.

(** [parts.join(sep)] on strings. *)
Fixpoint join (sep : jsstring) (parts : list jsstring) : jsstring :=
  match parts with
  | [] => []
  | [p] => p
  | p :: rest => p ++ sep ++ join sep rest
  end.

(** ** Document values *)

(** The Number values of a decoded document are doubles; their printing and
    parsing are the engine's and are kept abstract. *)
Class Numbers : Type := {
  number : Type;
  (** [String(n)] *)
  number_to_string : number -> jsstring;
  (** the Number of a non-negative integer, such as a [length] *)
  number_of_N : N -> number;
  (** StringToNumber; [None] is [NaN] *)
  string_to_number : jsstring -> option number;
  (** [n] is neither zero nor [NaN] *)
  number_truthy : number -> bool;
  (** [n > 0] *)
  number_positive : number -> bool;
  number_positive_of_N :
    forall n, number_positive (number_of_N n) = (0 <? n)%N;
}.

Section Values.
Context `{Numbers}.

(** What [JSON.parse] can produce, and [undefined], which reading an
    absent property yields.  The entries of an object are held in
    own-property order, the order of [Object.keys]; their keys are
    pairwise distinct. *)
Inductive Value : Type :=
| VNull
| VUndefined
| VBool (b : bool)
| VNumber (n : number)
| VString (s : jsstring)
| VArray (items : list Value)
| VObject (entries : list (jsstring * Value)).

Inductive JSType : Type :=
| TUndefined | TObject | TBoolean | TNumber | TString.

Definition typeof (v : Value) : JSType :=
  match v with
  | VUndefined => TUndefined
  | VNull | VArray _ | VObject _ => TObject
  | VBool _ => TBoolean
  | VNumber _ => TNumber
  | VString _ => TString
  end.

Definition JSType_eqb (a b : JSType) : bool :=
  match a, b with
  | TUndefined, TUndefined | TObject, TObject | TBoolean, TBoolean
  | TNumber, TNumber | TString, TString => true
  | _, _ => false
  end.

Definition is_null (v : Value) : bool :=
  match v with VNull => true | _ => false end.

Definition is_undefined (v : Value) : bool :=
  match v with VUndefined => true | _ => false end.

(** [v === ''] *)
Definition is_empty_string (v : Value) : bool :=
  match v with VString [] => true | _ => false end.

(** [v === false] *)
Definition is_false (v : Value) : bool :=
  match v with VBool false => true | _ => false end.

Definition Array_isArray (v : Value) : bool :=
  match v with VArray _ => true | _ => false end.

(** ToBoolean *)
Definition truthy (v : Value) : bool :=
  match v with
  | VNull | VUndefined => false
  | VBool b => b
  | VNumber n => number_truthy n
  | VString s => match s with [] => false | _ => true end
  | VArray _ | VObject _ => true
  end.

(** [a || b] *)
Definition or_else (a b : Value) : Value := if truthy a then a else b.

End Values.

Arguments Value {_}.

(** ** Reading documents *)

Section Access.
Context `{Numbers}.

(** The engine's texts and the builtins whose result the code only passes
    on. *)
Class Engine : Type := {
  (** the [message] of a [TypeError] the engine raises *)
  type_error_message : TypeErrorKind -> jsstring;
  (** [JSON.stringify(v, null, 2)]; [None] is [undefined] *)
  JSON_stringify : Value -> result (option jsstring);
  (** [encodeURIComponent(s)]; it throws on a lone surrogate *)
  encodeURIComponent : jsstring -> result jsstring;
}.

Context `{Engine}.

Definition TypeError {A : Type} (k : TypeErrorKind) : result A :=
  Throw (JsError (type_error_message k)).

Definition jsstring_eqb (a b : jsstring) : bool :=
  if decide (a = b) then true else false.

Fixpoint lookup_entry (k : jsstring) (entries : list (jsstring * Value))
  : option Value :=
  match entries with
  | [] => None
  | (k', v) :: rest => if jsstring_eqb k k' then Some v else lookup_entry k rest
  end.

(** ToString.  An array is joined with commas, [null] and [undefined]
    elements giving the empty string.  An object gives "[object Object]"
    through [Object.prototype.toString], unless it has an own [toString]
    entry: in a decoded document such an entry is not callable, no method
    is left that yields a primitive, and the conversion throws. *)
Fixpoint ToString (v : Value) : result jsstring :=
  match v with
  | VUndefined => Ok (str "undefined")
  | VNull => Ok (str "null")
  | VBool true => Ok (str "true")
  | VBool false => Ok (str "false")
  | VNumber n => Ok (number_to_string n)
  | VString s => Ok s
  | VArray items =>
      let* parts :=
        sequence
          (List.map (fun x => match x with
                              | VNull | VUndefined => Ok []
                              | _ => ToString x
                              end) items) in
      Ok (join (str ",") parts)
  | VObject entries =>
      match lookup_entry (str "toString") entries with
      | Some _ => TypeError NoPrimitiveValue
      | None => Ok (str "[object Object]")
      end
  end.

(** [items.join(sep)] on an array: [null] and [undefined] elements
    contribute the empty string, every other element its ToString. *)
Definition Array_join (sep : jsstring) (items : list Value) : result jsstring :=
  let* parts :=
    sequence
      (List.map (fun x => match x with
                          | VNull | VUndefined => Ok []
                          | _ => ToString x
                          end) items) in
  Ok (join sep parts).

(** The array index a property key denotes, if it is the canonical
    decimal form of one. *)
Definition index_of_key (k : jsstring) : option nat :=
  match take_digits 10 k with
  | [] => None
  | ds => let n := Z.to_N (digits_value 10 ds) in
          if jsstring_eqb (dec n) k then Some (N.to_nat n) else None
  end.

(** [v[k]], for a property name [k] that the built-in prototypes do not
    define (the code reads no other): an own property, or [undefined].
    Reading a property of [null] or [undefined] throws. *)
Definition get (v : Value) (k : jsstring) : result Value :=
  match v with
  | VNull | VUndefined => TypeError (ReadPropertyOfNullish k)
  | VObject entries =>
      Ok (match lookup_entry k entries with Some x => x | None => VUndefined end)
  | VArray items =>
      if jsstring_eqb k (str "length")
      then Ok (VNumber (number_of_N (N.of_nat (length items))))
      else Ok (match index_of_key k with
               | Some i => nth i items VUndefined
               | None => VUndefined
               end)
  | VString s =>
      if jsstring_eqb k (str "length")
      then Ok (VNumber (number_of_N (N.of_nat (length s))))
      else Ok (match index_of_key k with
               | Some i => match nth_error s i with
                           | Some c => VString [c]
                           | None => VUndefined
                           end
               | None => VUndefined
               end)
  | VBool _ | VNumber _ => Ok VUndefined
  end.

(** [v?.[k]] *)
Definition get_opt (v : Value) (k : jsstring) : Value :=
  match v with
  | VNull | VUndefined => VUndefined
  | _ => match get v k with Ok x => x | Throw _ => VUndefined end
  end.

(** [Object.entries(v)] *)
Definition Object_entries (v : Value) : result (list (jsstring * Value)) :=
  match v with
  | VNull | VUndefined => TypeError NullishToObject
  | VObject entries => Ok entries
  | VArray items => Ok (mapi (fun x i => (dec i, x)) items)
  | VString s => Ok (mapi (fun c i => (dec i, VString [c])) s)
  | VBool _ | VNumber _ => Ok []
  end.

(** [Object.keys(v)] *)
Definition Object_keys (v : Value) : result (list jsstring) :=
  let* entries := Object_entries v in Ok (List.map fst entries).

(** ToNumber, as far as a comparison with zero needs it; [None] is
    [NaN].  An array or an object is first made a primitive, which for a
    decoded document is its ToString. *)
Definition ToNumber (v : Value) : result (option number) :=
  match v with
  | VUndefined => Ok None
  | VNull => Ok (Some (number_of_N 0))
  | VBool b => Ok (Some (number_of_N (if b then 1 else 0)))
  | VNumber n => Ok (Some n)
  | VString s => Ok (string_to_number s)
  | VArray _ | VObject _ =>
      let* text := ToString v in Ok (string_to_number text)
  end.

(** [v > 0] *)
Definition greater_than_zero (v : Value) : result bool :=
  let* n := ToNumber v in
  Ok (match n with
      | Some n => number_positive n
      | None => false
      end).

(** [v.join(sep)]: only arrays have the method. *)
Definition call_join (v : Value) (sep : jsstring) : result jsstring :=
  match v with
  | VArray items => Array_join sep items
  | VNull | VUndefined => TypeError (ReadPropertyOfNullish (str "join"))
  | _ => TypeError (NotAFunction (str "join"))
  end.
End Access.

Arguments Engine {_}.

(** ** React elements *)

Section Display.
Context `{Numbers} {engine : Engine}.

(** What a click handler of the display does. *)
Inductive Action : Type :=
| ToggleSection (sectionKey : jsstring).

(** What a render function returns or places among the children of an
    element: a string, a number, a document value placed as it is, [null],
    an array of nodes (the result of a [map]), or an element with its
    [className], [key] and [onClick] props. *)
Inductive Node : Type :=
| NText (s : jsstring)
| NNumber (n : N)
| NValue (v : Value)
| NNull
| NArray (items : list Node)
| NElement (type : jsstring) (className : option jsstring)
    (key : option jsstring) (onClick : option Action) (children : list Node).

Definition el (type className : string) (children : list Node) : Node :=
  NElement (str type) (Some (str className)) None None children.

Definition el_keyed (type : string) (key : jsstring) (className : string)
    (children : list Node) : Node :=
  NElement (str type) (Some (str className)) (Some key) None children.

Definition not_available : Node :=
  el "span" "text-gray-500 italic" [NText (str "Not available")].

Definition none_listed : Node :=
  el "span" "text-gray-500 italic" [NText (str "None listed")].

(** The [li] of a rendered array for the element at index [i]
    (line 369). *)
Definition list_item (i : N) (r : Node) : Node :=
  el_keyed "li" (dec i) "text-sm" [r].

(** The block of a rendered object for the entry [k] (lines 379-382). *)
Definition object_block (k : jsstring) (r : Node) : Node :=
  el_keyed "div" k "border-l-2 border-gray-200 pl-3"
    [el "div" "font-medium text-gray-700" [NText k; NText (str ":")];
     el "div" "ml-2" [r]].

Definition is_primitive_type (t : JSType) : bool :=
  JSType_eqb t TString || JSType_eqb t TNumber || JSType_eqb t TBoolean.

(** [renderValue] (lines 346-389).  In the array branch [value.map] is the
    map over the items of the array, and in the object branch
    [Object.entries(value)] are the entries of the object; the other arms
    of the two [match]es are what these builtins do on a value that is not
    an array, respectively is [null]: the tests before them keep every
    value away from those arms. *)
Fixpoint renderValue (value : Value) : result Node :=
  if is_null value || is_undefined value || is_empty_string value then
    Ok not_available
  else if is_primitive_type (typeof value) then
    let* stringValue := ToString value in
    if (100 <? length stringValue)%nat then
      Ok (el "div" "text-sm"
            [el "div" "whitespace-pre-wrap" [NText stringValue]])
    else Ok (NText stringValue)
  else if Array_isArray value then
    match value with
    | VArray items =>
        if (length items =? 0)%nat then Ok none_listed
        else
          let* lis :=
            sequence
              (mapi (fun v i =>
                       let* r := renderValue v in
                       Ok (list_item i r))
                    items) in
          Ok (el "ul" "list-disc list-inside space-y-1" [NArray lis])
    | _ => TypeError (NotAFunction (str "map"))
    end
  else if JSType_eqb (typeof value) TObject then
    match value with
    | VObject entries =>
        let* blocks :=
          sequence
            (List.map (fun kv =>
                         match kv with
                         | (k, v) =>
                             let* r := renderValue v in
                             Ok (object_block k r)
                         end)
                      entries) in
        Ok (el "div" "space-y-2" [NArray blocks])
    | _ => TypeError NullishToObject
    end
  else
    let* dump := JSON_stringify value in
    Ok (el "pre" "text-xs bg-gray-100 p-2 rounded overflow-auto"
          [match dump with Some text => NText text | None => NValue VUndefined end]).
End Display.

Arguments Node {_}.

(** ** The section display (SDSDisplay of the POST client) *)

Section Sections.
Context `{Numbers} {engine : Engine}.

(** The expand state: the set of the keys of the open sections. *)
Definition initial_expanded : gset jsstring :=
  {[ str "Section1"; str "Section3" ]}.

(** [toggleSection] (lines 325-335): a copy of the set with the key removed
    if it was there and added if not. *)
Definition toggleSection (sectionKey : jsstring) (prev : gset jsstring)
  : gset jsstring :=
  if decide (sectionKey ∈ prev) then prev ∖ {[ sectionKey ]}
  else prev ∪ {[ sectionKey ]}.

(** [sds.sds || sds] *)
Definition sdsData_of (sds : Value) : result Value :=
  let* inner := get sds (str "sds") in Ok (or_else inner sds).

(** [expandAllSections] (lines 337-340) *)
Definition expandAllSections (sds : Value) : result (gset jsstring) :=
  let* sdsData := sdsData_of sds in
  let* keys := Object_keys sdsData in
  Ok (list_to_set (List.filter (startsWith section_prefix) keys)).

(** [collapseAllSections] (lines 342-344) *)
Definition collapseAllSections : gset jsstring := ∅.

Definition apply_action (a : Action) (expanded : gset jsstring)
  : gset jsstring :=
  match a with ToggleSection k => toggleSection k expanded end.

(** The compound name of the header (line 395). *)
Definition compoundName (sdsData : Value) : Value :=
  or_else
    (get_opt (get_opt (get_opt sdsData (str "Section1")) (str "data"))
       (str "Product Identifier"))
    (VString (str "Unknown Compound")).

(** The text of the collapse mark as the source file spells it. *)
Definition collapse_mark : jsstring := [226; 710; 8217]%N.

(** [cond && element]: the element if [cond] is truthy, and [cond] itself
    if not. *)
Definition and_then (cond : Value) (element : result Node) : result Node :=
  if truthy cond then element else Ok (NValue cond).

(** [list && list.length > 0 && element] (lines 501 and 507) *)
Definition when_nonempty (list : Value) (element : result Node)
  : result Node :=
  and_then list
    (let* len := get list (str "length") in
     let* positive := greater_than_zero len in
     and_then (VBool positive) element).

(** The metadata block of an open section (lines 499-513). *)
Definition section_metadata (section : Value) : result Node :=
  let* data_sources := get section (str "data_sources") in
  let* notes := get section (str "notes") in
  and_then (or_else data_sources notes)
    (let* sources :=
       when_nonempty data_sources
         (let* joined := call_join data_sources (str ", ") in
          Ok (el "div" "flex items-center gap-1"
                [el "FaInfoCircle" "text-blue-500" [];
                 NElement (str "span") None None None
                   [NText (str "Sources: "); NText joined]])) in
     let* remarks :=
       when_nonempty notes
         (let* joined := call_join notes (str "; ") in
          Ok (el "div" "italic" [NText (str "Notes: "); NText joined])) in
     Ok (el "div" "mt-4 text-xs text-gray-600 space-y-1" [sources; remarks])).

(** The content of an open section (lines 480-514). *)
Definition section_content (section data : Value) : result Node :=
  let* entries := Object_entries data in
  let* rows :=
    sequence
      (List.map (fun kv =>
                   match kv with
                   | (key, value) =>
                       let* r := renderValue value in
                       Ok (el_keyed "tr" key "hover:bg-white transition-colors"
                             [el "td" "px-4 py-3 font-medium text-gray-700 w-1/3 align-top"
                                [NText key];
                              el "td" "px-4 py-3 text-gray-900" [r]])
                   end)
                entries) in
  let* metadata := section_metadata section in
  Ok (el "div" "px-6 pb-6"
        [el "div" "bg-gray-50 rounded-lg overflow-hidden"
           [el "table" "w-full"
              [el "tbody" "divide-y divide-gray-200" [NArray rows]]];
         metadata]).

(** The callback of the [map] over the section keys (lines 443-517):
    [null] for a section that is missing or has no [data], and otherwise
    the header button followed by the content if the section is open. *)
Definition render_section (sdsData : Value) (expandedSections : gset jsstring)
    (sectionKey : jsstring) : result Node :=
  let* section := get sdsData sectionKey in
  if negb (truthy section) then Ok NNull
  else
    let* data := get section (str "data") in
    if negb (truthy data) then Ok NNull
    else
      let isExpanded := bool_decide (sectionKey ∈ expandedSections) in
      let sectionNum := replace section_prefix [] sectionKey in
      let isHazardSection := jsstring_eqb sectionKey (str "Section3") in
      let* title := get section (str "title") in
      let* keys := Object_keys data in
      let* content :=
        if isExpanded then section_content section data
        else Ok (NValue (VBool false)) in
      Ok (NElement (str "div") None (Some sectionKey) None
            [NElement (str "button")
               (Some (str "w-full px-6 py-4 text-left hover:bg-gray-50 focus:outline-none focus:bg-gray-50 transition-colors"))
               None (Some (ToggleSection sectionKey))
               [el "div" "flex items-center justify-between"
                  [el "div" "flex items-center gap-3"
                     [(if isHazardSection
                       then el "FaExclamationTriangle" "text-red-500 text-lg" []
                       else NValue (VBool false));
                      NElement (str "div") None None None
                        [el "h3" "text-lg font-semibold text-gray-800"
                           [NText (str "Section "); NText sectionNum;
                            NText (str ": "); NValue title];
                         el "p" "text-sm text-gray-600"
                           [NNumber (N.of_nat (length keys));
                            NText (str " properties")]]];
                   el "div" "text-gray-400"
                     [NText (if isExpanded then collapse_mark else str "+")]]];
             content]).

(** The children of the section list (lines 436-518): one node per key that
    starts with the section prefix, in sorted order. *)
Definition render_sections (sdsData : Value) (expandedSections : gset jsstring)
  : result (list Node) :=
  let* keys := Object_keys sdsData in
  sequence
    (List.map (render_section sdsData expandedSections) (section_order keys)).

End Sections.

(** ** Requests and responses *)

Inductive Method : Type := GET | POST.

Section Network.
Context `{Numbers}.

(** A [fetch] call.  The body is the value handed to [JSON.stringify]. *)
Record Request : Type := {
  method : Method;
  url : jsstring;
  body : option Value;
}.

(** A response: its status, and what reading its body as JSON and as a
    blob gives. *)
Record Response : Type := {
  status : N;
  json : result Value;
  blob : result jsstring;
}.

(** [response.ok]: the status is in the range 200-299. *)
Definition ok (response : Response) : bool :=
  ((200 <=? status response) && (status response <=? 299))%N.

(** [JSON.stringify({ smiles: s })] before serialisation. *)
Definition smiles_body (s : jsstring) : option Value :=
  Some (VObject [(str "smiles", VString s)]).
End Network.

Arguments Request {_}.
Arguments Response {_}.

(** ** SDSGenerator, the POST client *)

Section Generator.
Context `{Numbers} {engine : Engine}.

Definition API_BASE : jsstring := str "http://localhost:5000".

Record State : Type := {
  smiles : jsstring;
  sds : Value;
  loading : bool;
  error : jsstring;
  validation : Value;
  backendStatus : jsstring;
  downloadingFormat : option jsstring;
}.

Definition initial_state : State :=
  {| smiles := []; sds := VNull; loading := false; error := [];
     validation := VNull; backendStatus := str "unknown";
     downloadingFormat := None |}.

Definition setSmiles (x : jsstring) (st : State) : State :=
  {| smiles := x; sds := sds st; loading := loading st; error := error st;
     validation := validation st; backendStatus := backendStatus st;
     downloadingFormat := downloadingFormat st |}.

Definition setSds (x : Value) (st : State) : State :=
  {| smiles := smiles st; sds := x; loading := loading st; error := error st;
     validation := validation st; backendStatus := backendStatus st;
     downloadingFormat := downloadingFormat st |}.

Definition setLoading (x : bool) (st : State) : State :=
  {| smiles := smiles st; sds := sds st; loading := x; error := error st;
     validation := validation st; backendStatus := backendStatus st;
     downloadingFormat := downloadingFormat st |}.

Definition setError (x : jsstring) (st : State) : State :=
  {| smiles := smiles st; sds := sds st; loading := loading st; error := x;
     validation := validation st; backendStatus := backendStatus st;
     downloadingFormat := downloadingFormat st |}.

Definition setValidation (x : Value) (st : State) : State :=
  {| smiles := smiles st; sds := sds st; loading := loading st;
     error := error st; validation := x; backendStatus := backendStatus st;
     downloadingFormat := downloadingFormat st |}.

Definition setBackendStatus (x : jsstring) (st : State) : State :=
  {| smiles := smiles st; sds := sds st; loading := loading st;
     error := error st; validation := validation st; backendStatus := x;
     downloadingFormat := downloadingFormat st |}.

Definition setDownloadingFormat (x : option jsstring) (st : State) : State :=
  {| smiles := smiles st; sds := sds st; loading := loading st;
     error := error st; validation := validation st;
     backendStatus := backendStatus st; downloadingFormat := x |}.

(** [!s] on a string *)
Definition is_empty (s : jsstring) : bool :=
  match s with [] => true | _ => false end.

(** [generateSDS] up to its [await fetch] (lines 59-76): the state it
    leaves and the request it issues, if any. *)
Definition generateSDS_start (st : State) : State * option Request :=
  if is_empty (trim (smiles st)) then
    (setError (str "Please enter a SMILES string") st, None)
  else
    (setSds VNull (setError [] (setLoading true st)),
     Some {| method := POST;
             url := API_BASE ++ str "/api/sds";
             body := smiles_body (trim (smiles st)) |}).

(** What the [try] block of [generateSDS] computes from the outcome of
    the [fetch] (lines 78-84): the decoded report, or the exception the
    [catch] receives. *)
Definition generateSDS_response (outcome : result Response) : result Value :=
  let* response := outcome in
  if negb (ok response) then
    let errorData :=
      match json response with Ok d => d | Throw _ => VObject [] end in
    let* e := get errorData (str "error") in
    let* text :=
      ToString
        (or_else e (VString (str "Server error: " ++ dec (status response)))) in
    Throw (JsError text)
  else json response.

(** [generateSDS] from the moment the [fetch] settles (lines 78-90), on
    the state of that moment. *)
Definition generateSDS_settle (outcome : result Response) (st : State)
  : State :=
  setLoading false
    (match generateSDS_response outcome with
     | Ok data => setSds data st
     | Throw err => setSds VNull (setError (message err) st)
     end).

(** A whole run of [generateSDS] with nothing else happening in between. *)
Definition generateSDS (fetch : Request -> result Response) (st : State)
  : State * list Request :=
  match generateSDS_start st with
  | (st', None) => (st', [])
  | (st', Some request) => (generateSDS_settle (fetch request) st', [request])
  end.

(** The [disabled] prop of the generate button (line 217). *)
Definition generate_disabled (st : State) : bool :=
  loading st
  || is_empty (trim (smiles st))
  || is_false (get_opt (validation st) (str "valid")).

(** [clearForm] (lines 146-151) *)
Definition clearForm (st : State) : State :=
  setValidation VNull (setError [] (setSds VNull (setSmiles [] st))).

(** The callback of the validation timer (lines 23-27). *)
Definition validation_due (st : State) : State * option Request :=
  if negb (is_empty (trim (smiles st))) && (2 <? length (smiles st))%nat then
    (st, Some {| method := POST;
                 url := API_BASE ++ str "/api/validate";
                 body := smiles_body (smiles st) |})
  else (setValidation VNull st, None).

(** [validateSmiles] from the moment its [fetch] settles (lines 52-56). *)
Definition validateSmiles_settle (outcome : result Response) (st : State)
  : State :=
  match (let* response := outcome in json response) with
  | Ok data => setValidation data st
  | Throw _ =>
      setValidation
        (VObject [(str "valid", VBool false);
                  (str "error", VString (str "Validation failed"))]) st
  end.

(** [checkBackendHealth] from the moment its [fetch] settles
    (lines 36-40). *)
Definition checkBackendHealth_settle (outcome : result Response) (st : State)
  : State :=
  match (let* response := outcome in
         let* data := json response in Ok response) with
  | Ok response =>
      setBackendStatus (if ok response then str "online" else str "error") st
  | Throw _ => setBackendStatus (str "offline") st
  end.

(** The endpoint and the file name of a download format (lines 104-115). *)
Definition download_target (format : jsstring)
  : result (jsstring * jsstring) :=
  if jsstring_eqb format (str "docx") then
    Ok (str "/api/sds/docx", str "sds_report.docx")
  else if jsstring_eqb format (str "json") then
    Ok (str "/api/sds/json", str "sds_report.json")
  else Throw (JsError (str "Invalid format")).

(** [downloadFile] up to its [await fetch] (lines 93-123). *)
Definition downloadFile_start (format : jsstring) (st : State)
  : State * option Request :=
  if is_empty (trim (smiles st)) then
    (setError (str "Please enter a SMILES string first") st, None)
  else
    match download_target format with
    | Ok (endpoint, filename) =>
        (setDownloadingFormat (Some format) st,
         Some {| method := POST;
                 url := API_BASE ++ endpoint;
                 body := smiles_body (trim (smiles st)) |})
    | Throw err =>
        (setDownloadingFormat None
           (setError (str "Download failed: " ++ message err)
              (setDownloadingFormat (Some format) st)),
         None)
    end.

End Generator.

Arguments State {_}.

(** ** SDSForm, the legacy GET client *)

Module Legacy.
Section Form.
Context `{Numbers} {engine : Engine}.

Definition API_BASE : jsstring := str "https://msds-generation-2.onrender.com".

Record State : Type := {
  smiles : jsstring;
  sds : Value;
  loading : bool;
  error : jsstring;
}.

Definition initial_state : State :=
  {| smiles := []; sds := VNull; loading := false; error := [] |}.

Definition setSds (x : Value) (st : State) : State :=
  {| smiles := smiles st; sds := x; loading := loading st; error := error st |}.

Definition setLoading (x : bool) (st : State) : State :=
  {| smiles := smiles st; sds := sds st; loading := x; error := error st |}.

Definition setError (x : jsstring) (st : State) : State :=
  {| smiles := smiles st; sds := sds st; loading := loading st; error := x |}.

(** [handleSubmit] up to its [await fetch] (lines 14-19).  Building the
    URL can throw, inside the [try]. *)
Definition handleSubmit_start (st : State) : State * option Request :=
  let st1 := setError [] (setLoading true st) in
  match encodeURIComponent (smiles st) with
  | Ok query =>
      (st1, Some {| method := GET;
                    url := API_BASE ++ str "/api/sds?smiles=" ++ query;
                    body := None |})
  | Throw err =>
      (setLoading false (setSds VNull (setError (message err) st1)), None)
  end.

(** What the [try] block computes from the outcome of the [fetch]
    (lines 21-27). *)
Definition handleSubmit_response (outcome : result Response) : result Value :=
  let* res := outcome in
  if negb (ok res) then
    let err := match json res with Ok d => d | Throw _ => VObject [] end in
    let* e := get err (str "error") in
    let* text := ToString (or_else e (VString (str "Failed to fetch SDS"))) in
    Throw (JsError text)
  else json res.

(** [handleSubmit] from the moment the [fetch] settles (lines 21-33). *)
Definition handleSubmit_settle (outcome : result Response) (st : State)
  : State :=
  setLoading false
    (match handleSubmit_response outcome with
     | Ok data => setSds data st
     | Throw err => setSds VNull (setError (message err) st)
     end).

(** The value cell of the table (lines 139-141). *)
Definition value_cell (value : Value) : result Node :=
  match value with
  | VArray items =>
      let* joined := Array_join (str ", ") items in Ok (NText joined)
  | _ => Ok (NValue (or_else value (VString (str "Not available"))))
  end.

(** The callback of the section loop (lines 111-148). *)
Definition render_section (sds : Value) (sectionKey : jsstring)
  : result Node :=
  let* section := get sds sectionKey in
  let* title := get section (str "title") in
  let* data := get section (str "data") in
  let* entries := Object_entries data in
  let* rows :=
    sequence
      (mapi (fun kv index =>
               match kv with
               | (key, value) =>
                   let* cell := value_cell value in
                   Ok (el_keyed "tr" (dec index) "border-b border-gray-300"
                         [el "td" "border border-gray-300 p-2" [NText key];
                          el "td" "border border-gray-300 p-2" [cell]])
               end)
            entries) in
  Ok (el_keyed "div" sectionKey "my-6 bg-white rounded-lg shadow-md p-4"
        [el "div" "flex items-center justify-between mb-4"
           [el "h2" "text-xl font-bold" [NValue title];
            (if jsstring_eqb sectionKey (str "Section3")
             then el "span" "text-red-500 text-2xl"
                    [NElement (str "FaExclamationTriangle") None None None []]
             else NValue (VBool false))];
         el "table" "w-full border-collapse border border-gray-300"
           [NElement (str "thead") None None None
              [NElement (str "tr") None None None
                 [el "th" "border border-gray-300 p-2 bg-green-500 text-white"
                    [NText (str "Property")];
                  el "th" "border border-gray-300 p-2 bg-green-500 text-white"
                    [NText (str "Value")]]];
            NElement (str "tbody") None None None [NArray rows]]]).

(** The children of the section loop: one node per key of the report, in
    the order of [Object.keys]. *)
Definition render_sections (sds : Value) : result (list Node) :=
  let* keys := Object_keys sds in
  sequence (List.map (render_section sds) keys).
End Form.
End Legacy.

Arguments Legacy.State {_}.

(** ** Vocabulary of the properties *)

Definition is_decimal_digit (c : N) : bool := ((48 <=? c) && (c <=? 57))%N.

(** A key of the form [Section<N>]: the prefix followed by one or more
    decimal digits. *)
Definition matches_section_pattern (k : jsstring) : bool :=
  startsWith section_prefix k
  && negb (match skipn 7 k with [] => true | _ => false end)
  && forallb is_decimal_digit (skipn 7 k).

(** The integer that the digits after the prefix denote. *)
Definition integer_suffix (k : jsstring) : Z :=
  digits_value 10 (List.map (fun c => Z.of_N c - 48) (skipn 7 k)).

(** The comparator orders the elements of [l] by [rank]. *)
Definition ranks {A : Type} (comparefn : A -> A -> Num) (rank : A -> Z)
    (l : list A) : Prop :=
  forall x y, In x l -> In y l ->
    is_positive (comparefn x y) = (rank y <? rank x).

(** A generation request failed: the [fetch] rejected (a network error) or
    the response is not a 2xx one. *)
Definition request_failed `{Numbers} (outcome : result Response) : bool :=
  match outcome with
  | Throw _ => true
  | Ok response => negb (ok response)
  end.

Definition is_string `{Numbers} (v : Value) : bool :=
  match v with VString _ => true | _ => false end.

(** A list of citations or notes as the report format has it: absent, or
    an array of strings. *)
Definition listed_or_absent `{Numbers} (v : Value) : bool :=
  match v with
  | VUndefined => true
  | VArray items => forallb is_string items
  | _ => false
  end.

Definition metadata_listed `{Numbers} {engine : Engine} (section : Value) : bool :=
  listed_or_absent (get_opt section (str "data_sources"))
  && listed_or_absent (get_opt section (str "notes")).

(** The texts of such a list; [None] if it is absent. *)
Definition citation_texts `{Numbers} (v : Value) : option (list jsstring) :=
  match v with
  | VArray items =>
      Some (List.map (fun x => match x with VString s => s | _ => [] end) items)
  | _ => None
  end.

(** The click handler of the header button of a section node, and the
    content that follows the button. *)
Definition header_action `{Numbers} (n : Node) : option Action :=
  match n with
  | NElement _ _ _ _ (NElement _ _ _ onClick _ :: _) => onClick
  | _ => None
  end.

Definition section_body `{Numbers} (n : Node) : option Node :=
  match n with
  | NElement _ _ _ _ [_; content] => Some content
  | _ => None
  end.

(** The place of a Number on the number line, the infinities beyond every
    finite Number. *)
Definition number_rank (v : Num) : Z :=
  match v with
  | Finite z => z
  | Infinity false => 2 ^ 1024
  | Infinity true => - 2 ^ 1024
  | NaN => 0
  end.

(** The Number that the integer suffix of a key becomes. *)
Definition suffix_number (k : jsstring) : Num := to_number (integer_suffix k).

(** [s.includes(pat)] *)
Fixpoint includes (pat s : jsstring) : bool :=
  startsWith pat s
  || match s with
     | [] => false
     | _ :: s' => includes pat s'
     end.

(** ** An engine to compute with

    Numbers that are integers, printed in decimal; a string denotes a number
    if it is a run of decimal digits. *)

Definition Z_to_string (z : Z) : jsstring :=
  if z <? 0 then 45%N :: dec (Z.to_N (- z)) else dec (Z.to_N z).

Definition digits_to_Z (s : jsstring) : option Z :=
  match s with
  | [] => Some 0
  | _ => if (length (take_digits 10 s) =? length s)%nat
         then Some (digits_value 10 (take_digits 10 s)) else None
  end.

(** Integer Numbers. *)
#[export] Instance integer_numbers : Numbers := {|
  number := Z;
  number_to_string := Z_to_string;
  number_of_N := Z.of_N;
  string_to_number := digits_to_Z;
  number_truthy := fun z => negb (z =? 0);
  number_positive := fun z => 0 <? z;
  number_positive_of_N := fun n =>
    match n with
    | N0 => eq_refl
    | Npos _ => eq_refl
    end;
|}.

(** [encodeURIComponent]: the unreserved characters are kept, every other
    code point is written as the percent-escaped bytes of its UTF-8 form,
    and a surrogate that is not part of a pair throws. *)
Definition is_uri_unreserved (c : N) : bool :=
  ((48 <=? c) && (c <=? 57) || (65 <=? c) && (c <=? 90)
   || (97 <=? c) && (c <=? 122))%N
  || existsb (N.eqb c) [45; 95; 46; 33; 126; 42; 39; 40; 41]%N.

Definition hex_digit (n : N) : N :=
  if (n <? 10)%N then (48 + n)%N else (55 + n)%N.

Definition percent_byte (b : N) : jsstring :=
  [37%N; hex_digit (b / 16); hex_digit (b mod 16)].

Definition utf8_bytes (cp : N) : list N :=
  (if cp <? 128 then [cp]
   else if cp <? 2048 then [192 + cp / 64; 128 + cp mod 64]
   else if cp <? 65536 then
     [224 + cp / 4096; 128 + (cp / 64) mod 64; 128 + cp mod 64]
   else [240 + cp / 262144; 128 + (cp / 4096) mod 64;
         128 + (cp / 64) mod 64; 128 + cp mod 64])%N.

Definition percent_encode (cp : N) : jsstring :=
  List.concat (List.map percent_byte (utf8_bytes cp)).

Fixpoint encode_units (s : jsstring) : result jsstring :=
  match s with
  | [] => Ok []
  | c :: rest =>
      if is_uri_unreserved c then
        let* tail := encode_units rest in Ok (c :: tail)
      else if ((56320 <=? c) && (c <=? 57343))%N then
        Throw (JsError (str "URI malformed"))
      else if ((55296 <=? c) && (c <=? 56319))%N then
        match rest with
        | d :: rest' =>
            if ((56320 <=? d) && (d <=? 57343))%N then
              let* tail := encode_units rest' in
              Ok (percent_encode ((c - 55296) * 1024 + (d - 56320) + 65536)%N
                  ++ tail)
            else Throw (JsError (str "URI malformed"))
        | [] => Throw (JsError (str "URI malformed"))
        end
      else
        let* tail := encode_units rest in Ok (percent_encode c ++ tail)
  end.

(** An engine with the exception texts of V8.  Its serialiser answers
    [undefined]: the fallback of the renderer, the only place that calls
    it, is reached by no document value. *)
#[export] Instance plain_engine : Engine := {|
  type_error_message := fun k =>
    match k with
    | ReadPropertyOfNullish k => str "Cannot read properties of null (reading '" ++ k ++ str "')"
    | NotAFunction f => f ++ str " is not a function"
    | NullishToObject => str "Cannot convert undefined or null to object"
    | NoPrimitiveValue => str "Cannot convert object to primitive value"
    end;
  JSON_stringify := fun _ => Ok None;
  encodeURIComponent := encode_units;
|}.

(** A report with three sections, the second without [data], and a
    response of a failing server, to evaluate the model on. *)
Definition sample_report : list (jsstring * Value) :=
  [(str "Section10",
    VObject [(str "title", VString (str "Stability and Reactivity"));
             (str "data", VObject [(str "Reactivity", VString (str "Stable"))])]);
   (str "Section2",
    VObject [(str "title", VString (str "Composition"))]);
   (str "Section3",
    VObject [(str "title", VString (str "Hazard Identification"));
             (str "data",
              VObject [(str "GHS Classification",
                        VArray [VString (str "Flammable");
                                VString (str "Irritant")])]);
             (str "data_sources", VArray [VString (str "PubChem")])]);
   (str "metadata", VNull)].

Definition sample_failure : Response :=
  {| status := 500; json := Throw (JsError (str "Unexpected token <"));
     blob := Ok [] |}.

(** A response that carries the sample report, and a report whose
    citations are a string instead of an array. *)
Definition sample_success : Response :=
  {| status := 200;
     json := Ok (VObject [(str "sds", VObject sample_report)]);
     blob := Ok [] |}.

Definition sample_string_citations : list (jsstring * Value) :=
  [(str "Section1",
    VObject [(str "title", VString (str "Identification"));
             (str "data", VObject [(str "Product Identifier", VString (str "Ethanol"))]);
             (str "data_sources", VString (str "PubChem"))])].

(** * Properties *)

(** ** Numbers and [parseInt] *)

Lemma round_nonneg_exact (z : Z) :
  0 <= z <= 2 ^ 53 -> round_nonneg z = Finite z.
Proof.
  intros [Hlo Hhi]. unfold round_nonneg.
  destruct (Z.ltb_spec z (2 ^ 53)) as [Hlt | Hge]; [reflexivity |].
  assert (z = 2 ^ 53) as -> by lia.
  vm_compute. reflexivity.
Qed.

Lemma to_number_exact (z : Z) :
  - 2 ^ 53 <= z <= 2 ^ 53 -> to_number z = Finite z.
Proof.
  intros [Hlo Hhi]. unfold to_number.
  destruct (Z.ltb_spec z 0) as [Hneg | Hpos].
  - rewrite round_nonneg_exact by lia. simpl. f_equal. lia.
  - apply round_nonneg_exact. lia.
Qed.

Lemma digits_value_app (R : Z) (ds : list Z) (d : Z) :
  digits_value R (ds ++ [d]) = digits_value R ds * R + d.
Proof.
  unfold digits_value. rewrite fold_left_app. reflexivity.
Qed.

Lemma fold_digits_nonneg (ds : list Z) (acc : Z) :
  0 <= acc -> Forall (fun d => 0 <= d) ds ->
  0 <= fold_left (fun a d => a * 10 + d) ds acc.
Proof.
  revert acc. induction ds as [| d ds IH]; intros acc Hacc Hds; simpl.
  - exact Hacc.
  - inversion Hds; subst. apply IH; [lia | assumption].
Qed.

Lemma decimal_digit_cases (c : N) :
  is_decimal_digit c = true ->
  In c [48; 49; 50; 51; 52; 53; 54; 55; 56; 57]%N.
Proof.
  unfold is_decimal_digit. intros Hc.
  apply andb_true_iff in Hc as [Hlo Hhi].
  apply N.leb_le in Hlo. apply N.leb_le in Hhi.
  assert (c = 48 \/ c = 49 \/ c = 50 \/ c = 51 \/ c = 52 \/ c = 53 \/
          c = 54 \/ c = 55 \/ c = 56 \/ c = 57)%N as Hcases by lia.
  simpl. intuition.
Qed.

Lemma decimal_digit_value (c : N) :
  is_decimal_digit c = true ->
  digit_value c = Some (Z.of_N c - 48) /\ 0 <= Z.of_N c - 48 < 10.
Proof.
  intros Hc. apply decimal_digit_cases in Hc. simpl in Hc.
  repeat (destruct Hc as [<- | Hc]; [split; [reflexivity | lia] |]).
  contradiction.
Qed.

Lemma take_decimal_digits (ds : jsstring) :
  forallb is_decimal_digit ds = true ->
  take_digits 10 ds = List.map (fun c => Z.of_N c - 48) ds.
Proof.
  induction ds as [| c ds IH]; intros Hds; simpl in *.
  - reflexivity.
  - apply andb_true_iff in Hds as [Hc Hds].
    destruct (decimal_digit_value c Hc) as [-> Hrange].
    destruct (Z.ltb_spec (Z.of_N c - 48) 10); [| lia].
    rewrite IH by assumption. reflexivity.
Qed.

Lemma decimal_digits_nonneg (ds : jsstring) :
  forallb is_decimal_digit ds = true ->
  0 <= digits_value 10 (List.map (fun c => Z.of_N c - 48) ds).
Proof.
  intros Hds. unfold digits_value. apply fold_digits_nonneg; [lia |].
  apply List.Forall_map, List.Forall_forall. intros c Hin.
  rewrite List.forallb_forall in Hds.
  destruct (decimal_digit_value c (Hds c Hin)) as [_ Hrange]. lia.
Qed.

(** [parseInt] on a non-empty run of decimal digits is the Number of the
    integer they denote. *)
Lemma parseInt_decimal (ds : jsstring) :
  ds <> [] -> forallb is_decimal_digit ds = true ->
  parseInt ds
  = to_number (digits_value 10 (List.map (fun c => Z.of_N c - 48) ds)).
Proof.
  intros Hne Hds.
  pose proof (take_decimal_digits ds Hds) as Htake.
  assert (Hparse :
    parseInt ds = match take_digits 10 ds with
                  | [] => NaN
                  | z :: l => to_number (1 * digits_value 10 (z :: l))
                  end).
  { clear Htake. destruct ds as [| c ds]; [contradiction |].
    simpl in Hds. apply andb_true_iff in Hds as [Hc Hds].
    apply decimal_digit_cases in Hc. simpl in Hc.
    repeat (destruct Hc as [<- | Hc]; [try reflexivity |]); [| contradiction].
    destruct ds as [| d ds']; [reflexivity |].
    simpl in Hds. apply andb_true_iff in Hds as [Hd _].
    apply decimal_digit_cases in Hd. simpl in Hd.
    repeat (destruct Hd as [<- | Hd]; [reflexivity |]). contradiction. }
  rewrite Hparse, Htake.
  destruct ds as [| c ds]; [contradiction |].
  cbn [List.map]. f_equal. lia.
Qed.

(** ** The comparator of the section sort *)

Lemma replace_section_prefix (k : jsstring) :
  startsWith section_prefix k = true ->
  replace section_prefix [] k = skipn 7 k.
Proof.
  intros Hk. destruct k as [| c k].
  - discriminate.
  - unfold replace; fold replace. rewrite Hk. reflexivity.
Qed.

Lemma pattern_key_parse (k : jsstring) :
  matches_section_pattern k = true ->
  startsWith section_prefix k = true
  /\ 0 <= integer_suffix k
  /\ parseInt (replace section_prefix [] k) = to_number (integer_suffix k).
Proof.
  unfold matches_section_pattern, integer_suffix. intros Hk.
  apply andb_true_iff in Hk as [Hk Hdigits].
  apply andb_true_iff in Hk as [Hprefix Hne].
  split; [assumption |]. split.
  - apply decimal_digits_nonneg. assumption.
  - rewrite replace_section_prefix by assumption.
    apply parseInt_decimal; [| assumption].
    destruct (skipn 7 k); [discriminate | discriminate].
Qed.

(** For keys of the pattern whose suffix a Number holds exactly, the
    comparator is the difference of the suffixes. *)
Lemma compare_sections_exact (a b : jsstring) :
  matches_section_pattern a = true -> integer_suffix a <= 2 ^ 53 ->
  matches_section_pattern b = true -> integer_suffix b <= 2 ^ 53 ->
  compare_sections a b = Finite (integer_suffix a - integer_suffix b).
Proof.
  intros Ha Hla Hb Hlb.
  destruct (pattern_key_parse a Ha) as (_ & Ha0 & Hpa).
  destruct (pattern_key_parse b Hb) as (_ & Hb0 & Hpb).
  unfold compare_sections. rewrite Hpa, Hpb.
  rewrite !to_number_exact by lia. simpl.
  apply to_number_exact. lia.
Qed.

(** ** The sort *)

Section SortFacts.
Context {A : Type} (comparefn : A -> A -> Num) (rank : A -> Z).

Lemma insert_sorted_perm (x : A) (l : list A) :
  Permutation (x :: l) (insert_sorted comparefn x l).
Proof.
  induction l as [| y l IH]; simpl.
  - reflexivity.
  - destruct (is_positive (comparefn x y)).
    + rewrite perm_swap. apply perm_skip. exact IH.
    + reflexivity.
Qed.

Lemma sort_perm (l : list A) : Permutation l (sort comparefn l).
Proof.
  induction l as [| x l IH]; simpl.
  - reflexivity.
  - rewrite <- insert_sorted_perm. apply perm_skip. exact IH.
Qed.

Lemma insert_sorted_In (x y : A) (l : list A) :
  In y (insert_sorted comparefn x l) <-> y = x \/ In y l.
Proof.
  split; intros Hy.
  - apply (Permutation_in _ (Permutation_sym (insert_sorted_perm x l))) in Hy.
    destruct Hy as [-> | Hy]; auto.
  - apply (Permutation_in _ (insert_sorted_perm x l)).
    destruct Hy as [-> | Hy]; [left | right]; auto.
Qed.

Lemma insert_sorted_sorted (x : A) (l : list A) :
  ranks comparefn rank (x :: l) ->
  StronglySorted (fun a b => rank a <= rank b) l ->
  StronglySorted (fun a b => rank a <= rank b) (insert_sorted comparefn x l).
Proof.
  intros Hranks Hsorted.
  induction Hsorted as [| y l Hl IH Hy]; simpl.
  - repeat constructor.
  - rewrite (Hranks x y) by (simpl; auto).
    destruct (Z.ltb_spec (rank y) (rank x)) as [Hlt | Hge].
    + constructor.
      * apply IH. intros u v Hu Hv. apply Hranks; simpl in *; intuition.
      * apply List.Forall_forall. intros z Hz.
        apply insert_sorted_In in Hz as [-> | Hz]; [lia |].
        rewrite List.Forall_forall in Hy. apply Hy. exact Hz.
    + constructor; [constructor; assumption |].
      constructor; [exact Hge |].
      rewrite List.Forall_forall in Hy |- *.
      intros z Hz. specialize (Hy z Hz). lia.
Qed.

Lemma sort_sorted (l : list A) :
  ranks comparefn rank l -> StronglySorted (fun a b => rank a <= rank b) (sort comparefn l).
Proof.
  induction l as [| x l IH]; intros Hranks; simpl.
  - constructor.
  - apply insert_sorted_sorted.
    + intros u v Hu Hv. apply Hranks.
      * destruct Hu as [-> | Hu]; [left; reflexivity | right].
        apply (Permutation_in _ (Permutation_sym (sort_perm l))). exact Hu.
      * destruct Hv as [-> | Hv]; [left; reflexivity | right].
        apply (Permutation_in _ (Permutation_sym (sort_perm l))). exact Hv.
    + apply IH. intros u v Hu Hv. apply Hranks; right; assumption.
Qed.
End SortFacts.


Lemma filter_all {A : Type} (f : A -> bool) (l : list A) :
  Forall (fun x => f x = true) l -> List.filter f l = l.
Proof.
  induction 1 as [| x l Hx _ IH]; simpl.
  - reflexivity.
  - rewrite Hx, IH. reflexivity.
Qed.

Lemma section_order_of_pattern_keys (keys : list jsstring) :
  Forall (fun k => matches_section_pattern k = true) keys ->
  section_order keys = sort compare_sections keys.
Proof.
  intros Hkeys. unfold section_order. f_equal. apply filter_all.
  revert Hkeys. apply List.Forall_impl.
  intros k Hk. apply pattern_key_parse in Hk. tauto.
Qed.

Lemma pattern_keys_ranked (keys : list jsstring) :
  Forall (fun k => matches_section_pattern k = true
                   /\ integer_suffix k <= 2 ^ 53) keys ->
  ranks compare_sections integer_suffix keys.
Proof.
  intros Hkeys x y Hx Hy. rewrite List.Forall_forall in Hkeys.
  destruct (Hkeys x Hx) as [Hpx Hlx]. destruct (Hkeys y Hy) as [Hpy Hly].
  rewrite compare_sections_exact by assumption. simpl.
  destruct (Z.ltb_spec 0 (integer_suffix x - integer_suffix y));
    destruct (Z.ltb_spec (integer_suffix y) (integer_suffix x)); lia || reflexivity.
Qed.

(** C3 (as amended): keys of the form [Section<N>] whose suffix is at most
    2^53, the range in which a Number holds every integer exactly, are
    displayed in ascending order of the suffix: the display order is a
    rearrangement of the keys that is sorted by the integer suffix.  So
    Section10, Section2, Section1 are shown as Section1, Section2,
    Section10. *)
Theorem sections_in_numeric_order (keys : list jsstring) :
  Forall (fun k => matches_section_pattern k = true
                   /\ integer_suffix k <= 2 ^ 53) keys ->
  Permutation keys (section_order keys)
  /\ StronglySorted (fun a b => integer_suffix a <= integer_suffix b)
       (section_order keys).
Proof.
  intros Hkeys.
  assert (Hpattern : Forall (fun k => matches_section_pattern k = true) keys).
  { revert Hkeys. apply List.Forall_impl. intros k Hk. tauto. }
  rewrite section_order_of_pattern_keys by assumption. split.
  - apply sort_perm.
  - apply sort_sorted. apply pattern_keys_ranked. assumption.
Qed.

Lemma sections_in_numeric_order_witness :
  section_order [str "Section10"; str "Section2"; str "Section1"]
  = [str "Section1"; str "Section2"; str "Section10"]
  /\ StronglySorted (fun a b => integer_suffix a <= integer_suffix b)
       (section_order [str "Section10"; str "Section2"; str "Section1"]).
Proof.
  split; [reflexivity |].
  apply (sections_in_numeric_order
           [str "Section10"; str "Section2"; str "Section1"]).
  repeat constructor; vm_compute; congruence.
Defined.

(** C3 as stated fails beyond 2^53: [parseInt] gives the same Number for
    the suffixes 9007199254740993 and 9007199254740992, the comparator
    answers zero, and the stable sort leaves the two keys in the order of
    the document, the larger suffix first. *)
Lemma large_suffixes_not_in_numeric_order :
  ~ (forall keys : list jsstring,
       Forall (fun k => matches_section_pattern k = true) keys ->
       StronglySorted (fun a b => integer_suffix a <= integer_suffix b)
         (section_order keys)).
Proof.
  intros Hclaim.
  specialize (Hclaim [str "Section9007199254740993";
                      str "Section9007199254740992"]).
  assert (Horder :
    section_order [str "Section9007199254740993"; str "Section9007199254740992"]
    = [str "Section9007199254740993"; str "Section9007199254740992"])
    by (vm_compute; reflexivity).
  rewrite Horder in Hclaim.
  assert (Hsorted :
    StronglySorted (fun a b => integer_suffix a <= integer_suffix b)
      [str "Section9007199254740993"; str "Section9007199254740992"]).
  { apply Hclaim. repeat constructor. }
  inversion Hsorted as [| ? ? _ Hfirst]; subst.
  inversion Hfirst as [| ? ? Hle _]; subst.
  vm_compute in Hle. apply Hle. reflexivity.
Qed.

(** ** Fallible sequences *)

Lemma sequence_Ok {A : Type} (l : list (result A)) (r : list A) :
  sequence l = Ok r <-> Forall2 (fun m a => m = Ok a) l r.
Proof.
  revert r. induction l as [| m l IH]; intros r; simpl.
  - split.
    + intros [= <-]. constructor.
    + intros Hr. inversion Hr. reflexivity.
  - destruct m as [a | e].
    + destruct (sequence l) as [r' | e'].
      * split.
        -- intros [= <-]. constructor; [reflexivity | apply IH; reflexivity].
        -- intros Hr. inversion Hr as [| ? a' ? r'' Ha Hrest]; subst.
           injection Ha as <-. apply IH in Hrest. injection Hrest as <-.
           reflexivity.
      * split; [discriminate |].
        intros Hr. inversion Hr as [| ? a' ? r'' Ha Hrest]; subst.
        apply IH in Hrest. discriminate.
    + split; [discriminate |].
      intros Hr. inversion Hr as [| ? a' ? r'' Ha Hrest]; subst. discriminate.
Qed.

(** ** The value renderer *)

Section RenderFacts.
Context `{Numbers} {engine : Engine}.

(** Induction on a value with the hypothesis for every item of an array
    and every entry of an object. *)
Lemma Value_nested_ind (P : Value -> Prop) :
  P VNull -> P VUndefined -> (forall b, P (VBool b)) ->
  (forall n, P (VNumber n)) -> (forall s, P (VString s)) ->
  (forall items, Forall P items -> P (VArray items)) ->
  (forall entries, Forall (fun kv => P (snd kv)) entries ->
                   P (VObject entries)) ->
  forall v, P v.
Proof.
  intros HNull HUndefined HBool HNumber HString HArray HObject.
  fix IH 1. intros [| | b | n | s | items | entries].
  - exact HNull.
  - exact HUndefined.
  - apply HBool.
  - apply HNumber.
  - apply HString.
  - apply HArray. induction items as [| x xs IHxs]; constructor.
    + apply IH.
    + exact IHxs.
  - apply HObject. induction entries as [| [k x] xs IHxs]; constructor.
    + apply IH.
    + exact IHxs.
Qed.

Lemma renderValue_array (items : list Value) :
  renderValue (VArray items)
  = if (length items =? 0)%nat then Ok none_listed
    else
      let* lis :=
        sequence (mapi (fun v i => let* r := renderValue v in
                                   Ok (list_item i r)) items) in
      Ok (el "ul" "list-disc list-inside space-y-1" [NArray lis]).
Proof. reflexivity. Qed.

Lemma renderValue_object (entries : list (jsstring * Value)) :
  renderValue (VObject entries)
  = let* blocks :=
      sequence (List.map (fun kv => let* r := renderValue (snd kv) in
                                    Ok (object_block (fst kv) r)) entries) in
    Ok (el "div" "space-y-2" [NArray blocks]).
Proof.
  simpl.
  replace (List.map _ entries)
    with (List.map (fun kv => let* r := renderValue (snd kv) in
                              Ok (object_block (fst kv) r)) entries).
  - reflexivity.
  - apply List.map_ext. intros [k v]. reflexivity.
Qed.

Lemma renderValue_string (s : jsstring) :
  s <> [] ->
  renderValue (VString s)
  = Ok (if (100 <? length s)%nat
        then el "div" "text-sm" [el "div" "whitespace-pre-wrap" [NText s]]
        else NText s).
Proof.
  intros Hs. destruct s as [| c s]; [contradiction |].
  simpl. destruct (100 <? S (length s))%nat; reflexivity.
Qed.

(** The items of a rendered list: one per element, at the element's
    index, holding the rendering of the element. *)
Lemma render_items (items : list Value) (i : N) :
  Forall (fun v => exists r, renderValue v = Ok r) items ->
  exists lis,
    sequence (mapi_from (fun v i => let* r := renderValue v in
                                    Ok (list_item i r)) i items) = Ok lis
    /\ Forall2 (fun v li => exists r, renderValue v = Ok r
                                     /\ exists j, li = list_item j r)
          items lis
    /\ forall j v, nth_error items j = Some v ->
          exists r, renderValue v = Ok r
                    /\ nth_error lis j = Some (list_item (i + N.of_nat j) r).
Proof.
  intros Hitems. revert i.
  induction Hitems as [| v items [r Hr] _ IH]; intros i; simpl.
  - exists []. repeat split; [constructor |].
    intros [| j] v; discriminate.
  - destruct (IH (N.succ i)) as (lis & Hseq & Hall & Hnth).
    rewrite Hr, Hseq. exists (list_item i r :: lis). split; [reflexivity |].
    split.
    + constructor; [| exact Hall]. exists r. split; [exact Hr | eauto].
    + intros [| j] v'; simpl.
      * intros [= <-]. exists r. rewrite N.add_0_r. auto.
      * intros Hv. destruct (Hnth j v' Hv) as (r' & Hr' & Hli).
        exists r'. split; [exact Hr' |]. rewrite Hli. do 2 f_equal. lia.
Qed.

Lemma render_blocks (entries : list (jsstring * Value)) :
  Forall (fun kv => exists r, renderValue (snd kv) = Ok r) entries ->
  exists blocks,
    sequence (List.map (fun kv => let* r := renderValue (snd kv) in
                                  Ok (object_block (fst kv) r)) entries)
    = Ok blocks
    /\ Forall2 (fun kv block => exists r, renderValue (snd kv) = Ok r
                                 /\ block = object_block (fst kv) r)
          entries blocks.
Proof.
  induction 1 as [| kv entries [r Hr] _ (blocks & Hseq & Hall)]; simpl.
  - exists []. split; [reflexivity | constructor].
  - rewrite Hr, Hseq. exists (object_block (fst kv) r :: blocks).
    split; [reflexivity |]. constructor; [eauto | exact Hall].
Qed.

Lemma renderValue_total (value : Value) : exists r, renderValue value = Ok r.
Proof.
  induction value as [| | b | n | s | items IH | entries IH]
    using Value_nested_ind.
  - eexists; reflexivity.
  - eexists; reflexivity.
  - destruct b; simpl; eexists; reflexivity.
  - simpl. destruct (100 <? length (number_to_string n))%nat;
      eexists; reflexivity.
  - destruct s as [| c s]; [eexists; reflexivity |].
    rewrite renderValue_string by discriminate. eexists; reflexivity.
  - rewrite renderValue_array.
    destruct (length items =? 0)%nat; [eexists; reflexivity |].
    destruct (render_items items 0 IH) as (lis & Hseq & _).
    unfold mapi. rewrite Hseq. eexists; reflexivity.
  - rewrite renderValue_object.
    destruct (render_blocks entries IH) as (blocks & Hseq & _).
    rewrite Hseq. eexists; reflexivity.
Qed.

Lemma Forall2_length_eq {A B : Type} (R : A -> B -> Prop) l l' :
  Forall2 R l l' -> length l = length l'.
Proof. induction 1; simpl; congruence. Qed.

(** C2: an empty array, and no other, renders as the muted "None listed"
    placeholder (the span of class text-gray-500 italic with that text); a
    non-empty array renders as a bulleted list, the ul of class list-disc
    list-inside space-y-1, with exactly one li per element, in the order of
    the array: the li at each index is keyed by the index, has class
    text-sm, and holds the rendering of the element at that index and
    nothing else. *)
Theorem array_rendering (items : list Value) :
  (renderValue (VArray items)
   = Ok (NElement (str "span") (Some (str "text-gray-500 italic")) None None
           [NText (str "None listed")])
   <-> items = [])
  /\ (items <> [] ->
      exists lis,
        renderValue (VArray items)
        = Ok (NElement (str "ul") (Some (str "list-disc list-inside space-y-1"))
                None None [NArray lis])
        /\ length lis = length items
        /\ forall j v, nth_error items j = Some v ->
              exists r, renderValue v = Ok r
                        /\ nth_error lis j
                           = Some (NElement (str "li") (Some (str "text-sm"))
                                     (Some (dec (N.of_nat j))) None [r])).
Proof.
  assert (Hmany : items <> [] ->
    exists lis,
      renderValue (VArray items)
      = Ok (NElement (str "ul") (Some (str "list-disc list-inside space-y-1"))
              None None [NArray lis])
      /\ length lis = length items
      /\ forall j v, nth_error items j = Some v ->
            exists r, renderValue v = Ok r
                      /\ nth_error lis j
                         = Some (NElement (str "li") (Some (str "text-sm"))
                                   (Some (dec (N.of_nat j))) None [r])).
  { intros Hne. rewrite renderValue_array.
    destruct items as [| v items]; [contradiction |].
    destruct (render_items (v :: items) 0) as (lis & Hseq & Hall & Hnth).
    { apply List.Forall_forall. intros x _. apply renderValue_total. }
    change (length (v :: items) =? 0)%nat with false. cbv iota.
    unfold mapi. rewrite Hseq. exists lis. split; [reflexivity |]. split.
    - symmetry. eapply Forall2_length_eq. exact Hall.
    - exact Hnth. }
  split; [| exact Hmany]. split.
  - intros Hplaceholder. destruct items as [| v items]; [reflexivity |].
    destruct Hmany as (lis & Hul & _); [discriminate |].
    rewrite Hul in Hplaceholder. vm_compute in Hplaceholder. discriminate.
  - intros ->. reflexivity.
Qed.

(** C8: [null], [undefined] and the empty string render as the muted
    "Not available" placeholder. *)
Theorem empty_values_not_available :
  renderValue VNull
  = Ok (el "span" "text-gray-500 italic" [NText (str "Not available")])
  /\ renderValue VUndefined
     = Ok (el "span" "text-gray-500 italic" [NText (str "Not available")])
  /\ renderValue (VString [])
     = Ok (el "span" "text-gray-500 italic" [NText (str "Not available")]).
Proof. repeat split; reflexivity. Qed.

(** C10: a string that is not the empty string, and so a string of white
    space only, renders as its own text (inside the pre-wrapped block if
    it is longer than 100 code units), not as the "Not available"
    placeholder. *)
Theorem nonempty_string_is_text (s : jsstring) :
  s <> [] ->
  renderValue (VString s)
  = Ok (if (100 <? length s)%nat
        then el "div" "text-sm" [el "div" "whitespace-pre-wrap" [NText s]]
        else NText s)
  /\ renderValue (VString s) <> Ok not_available.
Proof.
  intros Hs. rewrite renderValue_string by assumption.
  split; [reflexivity |].
  destruct (100 <? length s)%nat; intros [= Heq];
    try (vm_compute in Heq; discriminate).
Qed.
End RenderFacts.

Lemma sequence_mapi_agree {A B : Type} (f g : A -> N -> result B)
    (l : list A) (i : N) :
  Forall (fun x => forall j, exists y, f x j = Ok y /\ g x j = Ok y) l ->
  exists ys, sequence (mapi_from f i l) = Ok ys
             /\ sequence (mapi_from g i l) = Ok ys.
Proof.
  intros Hl. revert i. induction Hl as [| x l Hx _ IH]; intros i; simpl.
  - exists []. split; reflexivity.
  - destruct (Hx i) as (y & -> & ->).
    destruct (IH (N.succ i)) as (ys & -> & ->).
    exists (y :: ys). split; reflexivity.
Qed.

Lemma sequence_map_agree {A B : Type} (f g : A -> result B) (l : list A) :
  Forall (fun x => exists y, f x = Ok y /\ g x = Ok y) l ->
  exists ys, sequence (List.map f l) = Ok ys
             /\ sequence (List.map g l) = Ok ys.
Proof.
  induction 1 as [| x l (y & Hf & Hg) _ (ys & Hfs & Hgs)]; simpl.
  - exists []. split; reflexivity.
  - rewrite Hf, Hg, Hfs, Hgs. exists (y :: ys). split; reflexivity.
Qed.

(** C1: [renderValue] returns a node for every document value, whatever
    its nesting, and the same node under any two engines, whatever texts
    their exceptions carry and whatever their serialiser does: no test of
    the function lets a value reach an arm that throws, nor the fallback.
    The function reads nothing but its argument and sets no state. *)
Theorem renderValue_never_throws `{Numbers} (E1 E2 : Engine) (value : Value) :
  exists r, @renderValue _ E1 value = Ok r /\ @renderValue _ E2 value = Ok r.
Proof.
  induction value as [| | b | n | s | items IH | entries IH]
    using Value_nested_ind.
  - eexists; split; reflexivity.
  - eexists; split; reflexivity.
  - destruct b; eexists; split; reflexivity.
  - simpl. destruct (100 <? length (number_to_string n))%nat;
      eexists; split; reflexivity.
  - destruct s as [| c s]; [eexists; split; reflexivity |].
    rewrite !renderValue_string by discriminate. eexists; split; reflexivity.
  - rewrite !renderValue_array.
    destruct (length items =? 0)%nat; [eexists; split; reflexivity |].
    destruct (sequence_mapi_agree
                (fun v i => let* r := @renderValue _ E1 v in Ok (list_item i r))
                (fun v i => let* r := @renderValue _ E2 v in Ok (list_item i r))
                items 0) as (lis & H1 & H2).
    { revert IH. apply List.Forall_impl. intros v (r & -> & ->) j.
      eexists; split; reflexivity. }
    unfold mapi. rewrite H1, H2. eexists; split; reflexivity.
  - rewrite !renderValue_object.
    destruct (sequence_map_agree
                (fun kv => let* r := @renderValue _ E1 (snd kv) in
                           Ok (object_block (fst kv) r))
                (fun kv => let* r := @renderValue _ E2 (snd kv) in
                           Ok (object_block (fst kv) r))
                entries) as (blocks & H1 & H2).
    { revert IH. apply List.Forall_impl. intros kv (r & -> & ->).
      eexists; split; reflexivity. }
    rewrite H1, H2. eexists; split; reflexivity.
Qed.

(** ** The expand state *)

(** C7: toggling a section key twice in succession gives back the set one
    started from: the key, and every other key, is open afterwards exactly
    if it was open before. *)
Theorem toggleSection_twice (sectionKey : jsstring) (expanded : gset jsstring) :
  toggleSection sectionKey (toggleSection sectionKey expanded) = expanded.
Proof.
  unfold toggleSection.
  destruct (decide (sectionKey ∈ expanded)) as [Hin | Hout].
  - destruct (decide (sectionKey ∈ expanded ∖ {[ sectionKey ]})) as [Hin' | _].
    + set_solver.
    + apply set_eq. intros x. destruct (decide (x = sectionKey)); set_solver.
  - destruct (decide (sectionKey ∈ expanded ∪ {[ sectionKey ]})) as [_ | Hout'].
    + set_solver.
    + set_solver.
Qed.

(** ** The generation request *)

Lemma startsWith_app (pat rest : jsstring) : startsWith pat (pat ++ rest) = true.
Proof.
  induction pat as [| c pat IH]; simpl.
  - reflexivity.
  - rewrite N.eqb_refl. exact IH.
Qed.

Lemma includes_suffix (pat before : jsstring) :
  includes pat (before ++ pat) = true.
Proof.
  induction before as [| c before IH].
  - simpl. destruct pat as [| p pat]; [reflexivity |].
    unfold includes; fold includes.
    rewrite <- (app_nil_r (p :: pat)) at 2. rewrite startsWith_app. reflexivity.
  - change ((c :: before) ++ pat) with (c :: (before ++ pat)).
    unfold includes; fold includes. rewrite IH. apply orb_true_r.
Qed.

Section GeneratorFacts.
Context `{Numbers} {engine : Engine}.

Lemma is_empty_true (s : jsstring) : is_empty s = true <-> s = [].
Proof. destruct s; simpl; split; congruence. Qed.

Lemma is_false_true (v : Value) : is_false v = true <-> v = VBool false.
Proof.
  destruct v as [| | [|] | | | |]; simpl; split; congruence.
Qed.

(** C5: with an input that is empty once trimmed (empty, or white space
    only) the generate action sets the local message "Please enter a
    SMILES string", changes nothing else and issues no request; and the
    generate button is disabled exactly when the trimmed input is empty,
    a request is in flight, or the last validation result has [valid]
    equal to [false]. *)
Theorem empty_input_issues_no_request (st : State) :
  (trim (smiles st) = [] ->
     generateSDS_start st
     = (setError (str "Please enter a SMILES string") st, None)
     /\ forall fetch,
          generateSDS fetch st
          = (setError (str "Please enter a SMILES string") st, []))
  /\ (generate_disabled st = true <->
        trim (smiles st) = [] \/ loading st = true
        \/ get_opt (validation st) (str "valid") = VBool false).
Proof.
  split.
  - intros Hempty.
    assert (Hstart : generateSDS_start st
                     = (setError (str "Please enter a SMILES string") st, None)).
    { unfold generateSDS_start. rewrite Hempty. reflexivity. }
    split; [exact Hstart |].
    intros fetch. unfold generateSDS. rewrite Hstart. reflexivity.
  - unfold generate_disabled.
    rewrite !orb_true_iff, is_empty_true, is_false_true. tauto.
Qed.

Lemma failed_response_throws (outcome : result Response) :
  request_failed outcome = true ->
  exists err, generateSDS_response outcome = Throw err.
Proof.
  destruct outcome as [response | e]; simpl; intros Hfailed.
  - rewrite Hfailed.
    destruct (get _ _) as [e |]; [| eexists; reflexivity].
    destruct (ToString _); eexists; reflexivity.
  - eexists; reflexivity.
Qed.

(** C9: when a generation request fails (the [fetch] rejects or the
    response is not a 2xx one) no earlier report stays: the report is set
    to [null] when the request starts, and again when the failure
    arrives, whatever the state was by then. *)
Theorem failed_generation_clears_report
    (st later : State) (outcome : result Response) :
  trim (smiles st) <> [] ->
  request_failed outcome = true ->
  sds (fst (generateSDS_start st)) = VNull
  /\ sds (generateSDS_settle outcome later) = VNull
  /\ forall fetch request,
       snd (generateSDS_start st) = Some request ->
       fetch request = outcome ->
       sds (fst (generateSDS fetch st)) = VNull.
Proof.
  intros Hinput Hfailed.
  assert (Hsettle : forall st', sds (generateSDS_settle outcome st') = VNull).
  { intros st'. unfold generateSDS_settle.
    destruct (failed_response_throws outcome Hfailed) as [err ->].
    reflexivity. }
  unfold generateSDS, generateSDS_start.
  destruct (trim (smiles st)) as [| c rest] eqn:Htrim; [contradiction |].
  simpl. split; [reflexivity |]. split; [apply Hsettle |].
  intros fetch request [= <-] <-. apply Hsettle.
Qed.

(** C6 (as amended): for a response that is not a 2xx one, both clients
    read the body as JSON and show its [error] text if it has one; when
    the body is not JSON, the POST client shows "Server error: " followed
    by the status code, and the legacy client the fixed text "Failed to
    fetch SDS". *)
Theorem error_body_or_fallback
    (response : Response) (st : State) (lst : Legacy.State) :
  ok response = false ->
  (forall entries m,
      json response = Ok (VObject entries) ->
      lookup_entry (str "error") entries = Some (VString m) -> m <> [] ->
      error (generateSDS_settle (Ok response) st) = m
      /\ Legacy.error (Legacy.handleSubmit_settle (Ok response) lst) = m)
  /\ (forall e,
        json response = Throw e ->
        error (generateSDS_settle (Ok response) st)
        = str "Server error: " ++ dec (status response)
        /\ includes (dec (status response))
             (error (generateSDS_settle (Ok response) st)) = true
        /\ Legacy.error (Legacy.handleSubmit_settle (Ok response) lst)
           = str "Failed to fetch SDS").
Proof.
  intros Hok. split.
  - intros entries m Hjson Herror Hm.
    unfold generateSDS_settle, generateSDS_response,
      Legacy.handleSubmit_settle, Legacy.handleSubmit_response.
    rewrite Hok, Hjson. simpl. rewrite Herror.
    unfold or_else. simpl.
    destruct m as [| c m]; [contradiction |]. split; reflexivity.
  - intros e Hjson.
    assert (Hpost : error (generateSDS_settle (Ok response) st)
                    = str "Server error: " ++ dec (status response)).
    { unfold generateSDS_settle, generateSDS_response.
      rewrite Hok, Hjson. reflexivity. }
    split; [exact Hpost |]. split.
    + rewrite Hpost. apply includes_suffix.
    + unfold Legacy.handleSubmit_settle, Legacy.handleSubmit_response.
      rewrite Hok, Hjson. reflexivity.
Qed.
End GeneratorFacts.

(** ** The section display *)

Lemma sequence_map_Ok {A B : Type} (f : A -> result B) (Q : A -> B -> Prop)
    (l : list A) :
  (forall x, In x l -> exists y, f x = Ok y /\ Q x y) ->
  exists ys, sequence (List.map f l) = Ok ys /\ Forall2 Q l ys.
Proof.
  induction l as [| x l IH]; intros Hall; simpl.
  - exists []. split; [reflexivity | constructor].
  - destruct (Hall x) as (y & Hy & HQ); [left; reflexivity |].
    destruct IH as (ys & Hys & HQs); [intros; apply Hall; right; assumption |].
    rewrite Hy, Hys. exists (y :: ys). split; [reflexivity |].
    constructor; assumption.
Qed.

(** The nodes of the section display, written out. *)

(** The row of the table for the field [key], whose value renders as [r]
    (lines 485-492). *)
Abbreviation table_row key r :=
  (NElement (str "tr") (Some (str "hover:bg-white transition-colors"))
     (Some key) None
     [NElement (str "td")
        (Some (str "px-4 py-3 font-medium text-gray-700 w-1/3 align-top"))
        None None [NText key];
      NElement (str "td") (Some (str "px-4 py-3 text-gray-900")) None None [r]]).

(** The metadata of an open section with the citations [sources] and the
    notes [notes], each absent or a list of texts (lines 499-513). *)
Abbreviation metadata_node sources notes :=
  (match sources, notes with
   | None, None => NValue VUndefined
   | _, _ =>
       NElement (str "div") (Some (str "mt-4 text-xs text-gray-600 space-y-1"))
         None None
         [match sources with
          | None => NValue VUndefined
          | Some [] => NValue (VBool false)
          | Some texts =>
              NElement (str "div") (Some (str "flex items-center gap-1"))
                None None
                [NElement (str "FaInfoCircle") (Some (str "text-blue-500"))
                   None None [];
                 NElement (str "span") None None None
                   [NText (str "Sources: "); NText (join (str ", ") texts)]]
          end;
          match notes with
          | None => NValue VUndefined
          | Some [] => NValue (VBool false)
          | Some texts =>
              NElement (str "div") (Some (str "italic")) None None
                [NText (str "Notes: "); NText (join (str "; ") texts)]
          end]
   end).

(** The content of an open section: the table of [rows] and then the
    metadata (lines 480-514). *)
Abbreviation open_content rows metadata :=
  (NElement (str "div") (Some (str "px-6 pb-6")) None None
     [NElement (str "div") (Some (str "bg-gray-50 rounded-lg overflow-hidden"))
        None None
        [NElement (str "table") (Some (str "w-full")) None None
           [NElement (str "tbody") (Some (str "divide-y divide-gray-200"))
              None None [NArray rows]]];
      metadata]).

(** The node of the section [k]: the header button, which toggles [k] and
    shows the hazard mark for Section3, the section number, the title, the
    field count and the open or closed mark, and then the content
    (lines 452-516). *)
Abbreviation section_node k title count opened content :=
  (NElement (str "div") None (Some k) None
     [NElement (str "button")
        (Some (str "w-full px-6 py-4 text-left hover:bg-gray-50 focus:outline-none focus:bg-gray-50 transition-colors"))
        None (Some (ToggleSection k))
        [NElement (str "div") (Some (str "flex items-center justify-between"))
           None None
           [NElement (str "div") (Some (str "flex items-center gap-3")) None None
              [(if decide (k = str "Section3")
                then NElement (str "FaExclamationTriangle")
                       (Some (str "text-red-500 text-lg")) None None []
                else NValue (VBool false));
               NElement (str "div") None None None
                 [NElement (str "h3")
                    (Some (str "text-lg font-semibold text-gray-800")) None None
                    [NText (str "Section "); NText (skipn 7 k);
                     NText (str ": "); NValue title];
                  NElement (str "p") (Some (str "text-sm text-gray-600"))
                    None None
                    [NNumber count; NText (str " properties")]]];
            NElement (str "div") (Some (str "text-gray-400")) None None
              [NText (if opened then [226; 710; 8217]%N else str "+")]]];
      content]).

Section SectionFacts.
Context `{Numbers} {engine : Engine}.

Lemma jsstring_eqb_eq (a b : jsstring) : jsstring_eqb a b = true <-> a = b.
Proof.
  unfold jsstring_eqb. destruct (decide (a = b)); split; congruence.
Qed.

Lemma lookup_entry_In (k : jsstring) (entries : list (jsstring * Value)) :
  In k (List.map fst entries) -> exists v, lookup_entry k entries = Some v.
Proof.
  induction entries as [| [k' v'] entries IH]; simpl.
  - contradiction.
  - intros [-> | Hin].
    + exists v'. replace (jsstring_eqb k k) with true; [reflexivity |].
      symmetry. apply jsstring_eqb_eq. reflexivity.
    + destruct (jsstring_eqb k k'); [eauto | apply IH; exact Hin].
Qed.

(** Reading a property of a value that is neither [null] nor [undefined]
    does not throw. *)
Lemma get_of_truthy (v : Value) (k : jsstring) :
  truthy v = true -> get v k = Ok (get_opt v k).
Proof.
  destruct v; simpl; try discriminate; intros _;
    try destruct (jsstring_eqb k (str "length")); reflexivity.
Qed.

Lemma Object_entries_of_truthy (v : Value) :
  truthy v = true -> exists entries, Object_entries v = Ok entries.
Proof.
  destruct v; simpl; try discriminate; intros _; eexists; reflexivity.
Qed.

Lemma Array_join_strings (sep : jsstring) (items : list Value) :
  forallb is_string items = true ->
  Array_join sep items
  = Ok (join sep (List.map (fun x => match x with VString s => s | _ => [] end)
                    items)).
Proof.
  intros Hitems. unfold Array_join.
  assert (Hparts :
    sequence (List.map (fun x => match x with
                                 | VNull | VUndefined => Ok []
                                 | _ => ToString x
                                 end) items)
    = Ok (List.map (fun x => match x with VString s => s | _ => [] end) items)).
  { induction items as [| x items IH]; [reflexivity |].
    simpl in Hitems. apply andb_true_iff in Hitems as [Hx Hitems].
    destruct x; try discriminate. simpl. rewrite (IH Hitems). reflexivity. }
  rewrite Hparts. reflexivity.
Qed.

Lemma when_nonempty_absent (element : result Node) :
  when_nonempty VUndefined element = Ok (NValue VUndefined).
Proof. reflexivity. Qed.

Lemma when_nonempty_array (items : list Value) (element : result Node) :
  when_nonempty (VArray items) element
  = match items with
    | [] => Ok (NValue (VBool false))
    | _ => element
    end.
Proof.
  unfold when_nonempty, and_then, greater_than_zero. simpl.
  rewrite number_positive_of_N. destruct items as [| x items]; [reflexivity |].
  destruct (N.ltb_spec 0 (N.of_nat (length (x :: items)))) as [_ | Hlen];
    [reflexivity | simpl in Hlen; lia].
Qed.

(** The metadata block of a section whose citations and notes are absent
    or arrays of strings. *)
Lemma section_metadata_typed (section : Value) :
  truthy section = true -> metadata_listed section = true ->
  section_metadata section
  = Ok (metadata_node (citation_texts (get_opt section (str "data_sources")))
          (citation_texts (get_opt section (str "notes")))).
Proof.
  intros Hsection Hlisted. unfold metadata_listed in Hlisted.
  apply andb_true_iff in Hlisted as [Hsources Hnotes].
  unfold section_metadata. rewrite !get_of_truthy by assumption.
  destruct (get_opt section (str "data_sources")) as [| | | | | sources |];
    try discriminate;
    destruct (get_opt section (str "notes")) as [| | | | | notes |];
    try discriminate; simpl in Hsources, Hnotes.
  - reflexivity.
  - rewrite when_nonempty_absent, when_nonempty_array.
    destruct notes as [| x notes]; [reflexivity |].
    unfold call_join. rewrite Array_join_strings by assumption. reflexivity.
  - rewrite when_nonempty_absent, when_nonempty_array.
    destruct sources as [| x sources]; [reflexivity |].
    unfold call_join. rewrite Array_join_strings by assumption. reflexivity.
  - rewrite !when_nonempty_array.
    destruct sources as [| x sources]; destruct notes as [| y notes];
      unfold call_join; rewrite ?Array_join_strings by assumption; reflexivity.
Qed.

Lemma table_rows (fields : list (jsstring * Value)) :
  exists rows,
    sequence
      (List.map (fun kv : jsstring * Value =>
                   match kv with
                   | (key, value) =>
                       let* r := renderValue value in
                       Ok (el_keyed "tr" key "hover:bg-white transition-colors"
                             [el "td" "px-4 py-3 font-medium text-gray-700 w-1/3 align-top"
                                [NText key];
                              el "td" "px-4 py-3 text-gray-900" [r]])
                   end)
                fields) = Ok rows
    /\ Forall2 (fun kv row => exists r, renderValue (snd kv) = Ok r
                                       /\ row = table_row (fst kv) r)
         fields rows.
Proof.
  apply sequence_map_Ok. intros [key value] _.
  destruct (renderValue_total value) as [r Hr]. simpl. rewrite Hr.
  eexists. split; [reflexivity |]. exists r. split; reflexivity.
Qed.


Lemma section_content_total (section data : Value) :
  truthy section = true -> truthy data = true ->
  metadata_listed section = true ->
  exists n, section_content section data = Ok n.
Proof.
  intros Hsection Hdata Hlisted. unfold section_content.
  destruct (Object_entries_of_truthy data Hdata) as [entries ->].
  destruct (table_rows entries) as (rows & -> & _).
  rewrite (section_metadata_typed section Hsection Hlisted).
  eexists; reflexivity.
Qed.

(** What the callback of the section list returns for a key of the
    report: [null] if the section or its [data] is falsy, and otherwise an
    element keyed by the section key. *)
Lemma render_section_cases (entries : list (jsstring * Value))
    (expanded : gset jsstring) (k : jsstring) (section : Value) :
  lookup_entry k entries = Some section ->
  (truthy section && truthy (get_opt section (str "data")) = false ->
     render_section (VObject entries) expanded k = Ok NNull)
  /\ (truthy section && truthy (get_opt section (str "data")) = true ->
      metadata_listed section = true \/ k ∉ expanded ->
      exists children,
        render_section (VObject entries) expanded k
        = Ok (NElement (str "div") None (Some k) None children)).
Proof.
  intros Hlookup. unfold render_section. simpl. rewrite Hlookup.
  destruct (truthy section) eqn:Hsection; simpl; [| split; [reflexivity | discriminate]].
  rewrite (get_of_truthy section (str "data")) by assumption.
  destruct (truthy (get_opt section (str "data"))) eqn:Hdata; simpl;
    split; try discriminate; try reflexivity.
  intros _ Hshown.
  rewrite (get_of_truthy section (str "title")) by assumption.
  unfold Object_keys.
  destruct (Object_entries_of_truthy _ Hdata) as [fields ->].
  destruct (bool_decide (k ∈ expanded)) eqn:Hexpanded.
  - destruct Hshown as [Hlisted | Hclosed].
    + destruct (section_content_total section _ Hsection Hdata Hlisted)
        as [content ->].
      eexists; reflexivity.
    + apply bool_decide_eq_true in Hexpanded. contradiction.
  - eexists; reflexivity.
Qed.




Lemma section_order_visits (keys : list jsstring) (k : jsstring) :
  In k keys -> startsWith section_prefix k = true -> In k (section_order keys).
Proof.
  intros Hin Hprefix. unfold section_order.
  apply (Permutation_in _ (sort_perm compare_sections _)).
  apply List.filter_In. split; assumption.
Qed.

Lemma section_order_keys (keys : list jsstring) (k : jsstring) :
  In k (section_order keys) -> In k keys.
Proof.
  unfold section_order. intros Hin.
  apply (Permutation_in _ (Permutation_sym (sort_perm compare_sections _))) in Hin.
  apply List.filter_In in Hin. tauto.
Qed.


End SectionFacts.

(** ** More on the renderer and the expand state *)

Section DisplayFacts.
Context `{Numbers} {engine : Engine}.

(** The "Not available" placeholder is the rendering of [null], [undefined]
    and the empty string and of nothing else: no other value, be it [false],
    zero, an empty array or an empty object, is shown as not available. *)
Theorem not_available_only_for_empty (value : Value) :
  renderValue value = Ok not_available
  <-> value = VNull \/ value = VUndefined \/ value = VString [].
Proof.
  split.
  - destruct value as [| | b | n | s | items | entries]; auto.
    + destruct b; intros [= Heq].
    + simpl. destruct (100 <? length (number_to_string n))%nat;
        intros [= Heq]; try (vm_compute in Heq; discriminate).
    + destruct s as [| c s]; auto.
      rewrite renderValue_string by discriminate.
      destruct (100 <? length (c :: s))%nat;
        intros [= Heq]; try (vm_compute in Heq; discriminate).
    + rewrite renderValue_array. destruct items as [| v items].
      * intros [= Heq]; try (vm_compute in Heq; discriminate).
      * change (length (v :: items) =? 0)%nat with false. cbv iota.
        destruct (sequence _);
          intros [= Heq]; try (vm_compute in Heq; discriminate).
    + rewrite renderValue_object.
      destruct (sequence _);
        intros [= Heq]; try (vm_compute in Heq; discriminate).
  - intros [-> | [-> | ->]]; reflexivity.
Qed.

(** Toggling a section key flips the membership of that key and leaves the
    membership of every other key as it was. *)
Theorem toggleSection_flips_one (sectionKey : jsstring) (expanded : gset jsstring) :
  (sectionKey ∈ toggleSection sectionKey expanded <-> sectionKey ∉ expanded)
  /\ forall other, other <> sectionKey ->
       (other ∈ toggleSection sectionKey expanded <-> other ∈ expanded).
Proof.
  unfold toggleSection.
  destruct (decide (sectionKey ∈ expanded)); split; set_solver.
Qed.

(** "Expand all" opens exactly the sections that the display lists: a key
    is in the new expand state if and only if it is one of the displayed
    section keys. *)
Theorem expandAll_opens_the_displayed_sections
    (sds : Value) (entries : list (jsstring * Value)) :
  sdsData_of sds = Ok (VObject entries) ->
  exists opened,
    expandAllSections sds = Ok opened
    /\ forall k, k ∈ opened <-> In k (section_order (List.map fst entries)).
Proof.
  intros Hdata. unfold expandAllSections. rewrite Hdata. simpl.
  eexists. split; [reflexivity |]. intros k.
  rewrite elem_of_list_to_set, list_elem_of_In. split.
  - intros Hk. apply List.filter_In in Hk as [Hin Hprefix].
    apply section_order_visits; assumption.
  - intros Hk. unfold section_order in Hk.
    apply (Permutation_in _ (Permutation_sym (sort_perm compare_sections _))) in Hk.
    exact Hk.
Qed.

(** With every section closed ("collapse all") the section list is produced
    without an exception whatever the sections hold, malformed citations
    included: only the content of an open section can throw. *)
Theorem collapsed_sections_never_throw (entries : list (jsstring * Value)) :
  exists nodes,
    render_sections (VObject entries) collapseAllSections = Ok nodes
    /\ length nodes = length (section_order (List.map fst entries)).
Proof.
  unfold render_sections, Object_keys. simpl.
  destruct (sequence_map_Ok (render_section (VObject entries) collapseAllSections)
              (fun _ _ => True) (section_order (List.map fst entries)))
    as (nodes & Hnodes & Hall).
  - intros k Hk. apply section_order_keys in Hk.
    destruct (lookup_entry_In k entries Hk) as [section Hsection].
    destruct (render_section_cases entries collapseAllSections k section Hsection)
      as [Hskip Hshow].
    destruct (truthy section && truthy (get_opt section (str "data"))).
    + destruct Hshow as [children Hnode]; [reflexivity | right; set_solver |].
      eexists; split; [exact Hnode | exact I].
    + eexists; split; [apply Hskip; reflexivity | exact I].
  - exists nodes. split; [exact Hnodes |].
    symmetry. eapply Forall2_length_eq. exact Hall.
Qed.

(** An open section whose citations are a non-empty string instead of an
    array makes the display throw: a string has a positive [length] and no
    [join] method. *)
Theorem string_citations_throw
    (entries : list (jsstring * Value)) (expanded : gset jsstring)
    (k : jsstring) (fields section : list (jsstring * Value)) (c : N) (s : jsstring) :
  lookup_entry k entries = Some (VObject section) ->
  lookup_entry (str "data") section = Some (VObject fields) ->
  lookup_entry (str "data_sources") section = Some (VString (c :: s)) ->
  k ∈ expanded ->
  render_section (VObject entries) expanded k
  = TypeError (NotAFunction (str "join")).
Proof.
  intros Hsection Hdata Hsources Hopen.
  unfold render_section. simpl. rewrite Hsection. simpl. rewrite Hdata. simpl.
  rewrite (bool_decide_eq_true_2 _ Hopen).
  unfold section_content. simpl.
  destruct (sequence_map_Ok
              (fun kv : jsstring * Value =>
                 match kv with
                 | (key, value) =>
                     let* r := renderValue value in
                     Ok (el_keyed "tr" key "hover:bg-white transition-colors"
                           [el "td" "px-4 py-3 font-medium text-gray-700 w-1/3 align-top"
                              [NText key];
                            el "td" "px-4 py-3 text-gray-900" [r]])
                 end)
              (fun _ _ => True) fields) as (rows & -> & _).
  { intros [key value] _. destruct (renderValue_total value) as [r ->].
    eexists; split; [reflexivity | exact I]. }
  unfold section_metadata. simpl. rewrite Hsources. simpl.
  unfold when_nonempty, and_then. simpl.
  unfold greater_than_zero. simpl. rewrite number_positive_of_N. reflexivity.
Qed.

(** An open section whose citations begin with an object that has an own
    [toString] entry makes the display throw: joining the citations
    converts the object to a string, and no method is left to do it. *)
Theorem unprintable_citation_throws
    (entries : list (jsstring * Value)) (expanded : gset jsstring)
    (k : jsstring) (fields section citation : list (jsstring * Value))
    (entry : Value) (rest : list Value) :
  lookup_entry k entries = Some (VObject section) ->
  lookup_entry (str "data") section = Some (VObject fields) ->
  lookup_entry (str "data_sources") section
  = Some (VArray (VObject citation :: rest)) ->
  lookup_entry (str "toString") citation = Some entry ->
  k ∈ expanded ->
  render_section (VObject entries) expanded k = TypeError NoPrimitiveValue.
Proof.
  intros Hsection Hdata Hsources Hentry Hopen.
  unfold render_section. simpl. rewrite Hsection. simpl. rewrite Hdata. simpl.
  rewrite (bool_decide_eq_true_2 _ Hopen).
  unfold section_content. simpl Object_entries. cbv iota.
  destruct (table_rows fields) as (rows & -> & _).
  unfold section_metadata. simpl get. rewrite Hsources.
  destruct (lookup_entry (str "notes") section) as [notes |];
    unfold and_then at 1, or_else; simpl truthy; cbv iota;
    rewrite when_nonempty_array; unfold call_join, Array_join; simpl;
    rewrite Hentry; reflexivity.
Qed.
End DisplayFacts.

(** ** More on the requests of the POST client *)

Section RequestFacts.
Context `{Numbers} {engine : Engine}.

(** A generation that succeeds: with a non-blank input, a 2xx response and
    a JSON body, one POST to /api/sds carrying the trimmed input is issued,
    and afterwards the report is the decoded body, the error message is
    empty and the loading flag is off. *)
Theorem successful_generation_shows_report
    (st : State) (fetch : Request -> result Response)
    (response : Response) (data : Value) :
  trim (smiles st) <> [] ->
  (forall request, fetch request = Ok response) ->
  ok response = true -> json response = Ok data ->
  generateSDS fetch st
  = (setLoading false (setError [] (setSds data st)),
     [{| method := POST; url := API_BASE ++ str "/api/sds";
         body := smiles_body (trim (smiles st)) |}]).
Proof.
  intros Hinput Hfetch Hok Hjson.
  unfold generateSDS, generateSDS_start.
  destruct (trim (smiles st)) as [| c rest] eqn:Htrim; [contradiction |].
  simpl. unfold generateSDS_settle, generateSDS_response.
  rewrite Hfetch, Hok, Hjson. reflexivity.
Qed.

(** However a generation request ends, the loading flag is off afterwards,
    and the input, the validation result, the backend status and the
    download flag are what they were when the outcome arrived. *)
Theorem settled_generation_stops_loading
    (outcome : result Response) (st : State) :
  loading (generateSDS_settle outcome st) = false
  /\ smiles (generateSDS_settle outcome st) = smiles st
  /\ validation (generateSDS_settle outcome st) = validation st
  /\ backendStatus (generateSDS_settle outcome st) = backendStatus st
  /\ downloadingFormat (generateSDS_settle outcome st) = downloadingFormat st.
Proof.
  unfold generateSDS_settle.
  destruct (generateSDS_response outcome); repeat split; reflexivity.
Qed.

(** An error body that is the JSON value [null] is neither read for a
    message nor replaced by the status text: reading its [error] property
    throws, and the message shown is the engine's text for that
    [TypeError]. *)
Theorem null_error_body_shows_type_error (response : Response) (st : State) :
  ok response = false -> json response = Ok VNull ->
  error (generateSDS_settle (Ok response) st)
  = type_error_message (ReadPropertyOfNullish (str "error")).
Proof.
  intros Hok Hjson. unfold generateSDS_settle, generateSDS_response.
  rewrite Hok, Hjson. reflexivity.
Qed.

(** An error body that is a JSON object without an [error] entry gives the
    status text. *)
Theorem error_body_without_message_shows_status
    (response : Response) (st : State) (entries : list (jsstring * Value)) :
  ok response = false -> json response = Ok (VObject entries) ->
  lookup_entry (str "error") entries = None ->
  error (generateSDS_settle (Ok response) st)
  = str "Server error: " ++ dec (status response).
Proof.
  intros Hok Hjson Hnone. unfold generateSDS_settle, generateSDS_response.
  rewrite Hok, Hjson. simpl. rewrite Hnone. reflexivity.
Qed.

(** A report that arrives after the form was cleared is shown all the same:
    clearing the form does not cancel the request in flight. *)
Theorem late_report_survives_clear
    (response : Response) (data : Value) (st : State) :
  ok response = true -> json response = Ok data ->
  sds (clearForm st) = VNull
  /\ sds (generateSDS_settle (Ok response) (clearForm st)) = data.
Proof.
  intros Hok Hjson. split; [reflexivity |].
  unfold generateSDS_settle, generateSDS_response.
  rewrite Hok, Hjson. reflexivity.
Qed.

(** Clearing the form empties the input, the report, the error message and
    the validation result, and leaves the generate button disabled. *)
Theorem clearForm_resets (st : State) :
  smiles (clearForm st) = [] /\ sds (clearForm st) = VNull
  /\ error (clearForm st) = [] /\ validation (clearForm st) = VNull
  /\ generate_disabled (clearForm st) = true.
Proof.
  repeat split; try reflexivity.
  unfold generate_disabled. simpl. apply orb_true_iff. left.
  apply orb_true_r.
Qed.

(** When the validation timer fires, a validation request is issued exactly
    if the input is non-blank and longer than two code units, white space
    counted; the request carries the input untrimmed.  Otherwise the
    validation result is reset to [null]. *)
Theorem validation_request_rule (st : State) :
  (trim (smiles st) <> [] /\ (2 < length (smiles st))%nat ->
     validation_due st
     = (st, Some {| method := POST; url := API_BASE ++ str "/api/validate";
                    body := smiles_body (smiles st) |}))
  /\ (trim (smiles st) = [] \/ (length (smiles st) <= 2)%nat ->
      validation_due st = (setValidation VNull st, None)).
Proof.
  unfold validation_due. split.
  - intros [Hinput Hlong].
    destruct (trim (smiles st)); [contradiction |].
    destruct (Nat.ltb_spec 2 (length (smiles st))); [reflexivity | lia].
  - intros [-> | Hshort]; [reflexivity |].
    destruct (Nat.ltb_spec 2 (length (smiles st))); [lia |].
    rewrite andb_false_r. reflexivity.
Qed.

(** A validation that fails to complete (the [fetch] rejects, or the body
    is not JSON) is recorded as an invalid input, and so disables the
    generate button. *)
Theorem failed_validation_disables_generation
    (outcome : result Response) (st : State) (e : Exn) :
  (let* response := outcome in json response) = Throw e ->
  validation (validateSmiles_settle outcome st)
  = VObject [(str "valid", VBool false);
             (str "error", VString (str "Validation failed"))]
  /\ generate_disabled (validateSmiles_settle outcome st) = true.
Proof.
  intros Hfailed.
  assert (Hvalidation :
    validation (validateSmiles_settle outcome st)
    = VObject [(str "valid", VBool false);
               (str "error", VString (str "Validation failed"))]).
  { unfold validateSmiles_settle. rewrite Hfailed. reflexivity. }
  split; [exact Hvalidation |].
  unfold generate_disabled. rewrite Hvalidation. apply orb_true_r.
Qed.

(** The backend is reported online exactly when the health probe resolves,
    its body is JSON and its status is a 2xx one; a 2xx response whose body
    is not JSON is reported offline. *)
Theorem backend_online_rule (outcome : result Response) (st : State) :
  (backendStatus (checkBackendHealth_settle outcome st) = str "online"
   <-> exists response data,
         outcome = Ok response /\ json response = Ok data
         /\ ok response = true)
  /\ (forall response e,
        outcome = Ok response -> json response = Throw e ->
        backendStatus (checkBackendHealth_settle outcome st) = str "offline").
Proof.
  unfold checkBackendHealth_settle. split.
  - destruct outcome as [response | e]; simpl.
    + destruct (json response) as [data | e] eqn:Hjson; simpl.
      * destruct (ok response) eqn:Hok; simpl; split.
        -- intros _. eauto.
        -- reflexivity.
        -- intros Heq. vm_compute in Heq. discriminate.
        -- intros (r & d & [= <-] & _ & Hok'). congruence.
      * split.
        -- intros Heq. vm_compute in Heq. discriminate.
        -- intros (r & d & [= <-] & Hjson' & _). congruence.
    + split.
      * intros Heq. vm_compute in Heq. discriminate.
      * intros (r & d & Heq & _). discriminate.
  - intros response e -> ->. reflexivity.
Qed.

(** A download with a format other than docx and json issues no request:
    it shows "Download failed: Invalid format" and leaves no download
    marked as running. *)
Theorem invalid_format_issues_no_request (format : jsstring) (st : State) :
  trim (smiles st) <> [] ->
  format <> str "docx" -> format <> str "json" ->
  downloadFile_start format st
  = (setDownloadingFormat None
       (setError (str "Download failed: Invalid format") st), None).
Proof.
  intros Hinput Hdocx Hjson. unfold downloadFile_start, download_target.
  destruct (trim (smiles st)); [contradiction |]. simpl.
  destruct (jsstring_eqb format (str "docx")) eqn:Heq1;
    [apply jsstring_eqb_eq in Heq1; contradiction |].
  destruct (jsstring_eqb format (str "json")) eqn:Heq2;
    [apply jsstring_eqb_eq in Heq2; contradiction |].
  reflexivity.
Qed.

End RequestFacts.

(** ** More on strings, keys and the sort *)

Lemma trimStart_blank (s : jsstring) :
  trimStart s = [] <-> forallb is_whitespace s = true.
Proof.
  induction s as [| c s IH]; simpl.
  - tauto.
  - destruct (is_whitespace c); simpl; [exact IH |].
    split; discriminate.
Qed.

Lemma trimStart_head (s : jsstring) (c : N) (rest : jsstring) :
  trimStart s = c :: rest -> is_whitespace c = false.
Proof.
  induction s as [| d s IH]; simpl.
  - discriminate.
  - destruct (is_whitespace d) eqn:Hd; [exact IH |].
    intros [= -> _]. exact Hd.
Qed.

Lemma forallb_rev {A : Type} (f : A -> bool) (l : list A) :
  forallb f (rev l) = forallb f l.
Proof.
  induction l as [| x l IH]; simpl.
  - reflexivity.
  - rewrite List.forallb_app, IH. simpl. rewrite andb_true_r. apply andb_comm.
Qed.

(** The trimmed input is empty exactly for an input made of white space
    only, the empty input included. *)
Theorem trim_blank (s : jsstring) :
  trim s = [] <-> forallb is_whitespace s = true.
Proof.
  unfold trim, trimEnd. split.
  - intros Htrim.
    destruct (trimStart s) as [| c rest] eqn:Hstart.
    + apply trimStart_blank. exact Hstart.
    + apply (f_equal (@rev N)) in Htrim. rewrite rev_involutive in Htrim.
      simpl in Htrim. apply trimStart_blank in Htrim.
      rewrite List.forallb_app in Htrim.
      apply andb_true_iff in Htrim as [_ Hc]. simpl in Hc.
      rewrite (trimStart_head s c rest Hstart) in Hc. discriminate.
  - intros Hblank. apply trimStart_blank in Hblank. rewrite Hblank.
    reflexivity.
Qed.

Lemma uint_units_digits (d : Decimal.uint) :
  forallb is_decimal_digit (uint_units d) = true.
Proof.
  induction d; simpl; try rewrite IHd; reflexivity.
Qed.

Lemma dec_digits (n : N) : forallb is_decimal_digit (dec n) = true.
Proof. apply uint_units_digits. Qed.

Lemma of_uint_acc_value (d : Decimal.uint) (acc : positive) :
  Z.pos (Pos.of_uint_acc d acc)
  = fold_left (fun a x => a * 10 + x)
      (List.map (fun c => Z.of_N c - 48) (uint_units d)) (Z.pos acc).
Proof.
  revert acc. induction d; intros acc; simpl;
    try rewrite IHd; try (f_equal; lia); reflexivity.
Qed.

Lemma of_uint_value (d : Decimal.uint) :
  Z.of_N (Pos.of_uint d)
  = digits_value 10 (List.map (fun c => Z.of_N c - 48) (uint_units d)).
Proof.
  unfold digits_value.
  induction d; simpl; try exact IHd; try reflexivity;
    rewrite of_uint_acc_value; reflexivity.
Qed.

Lemma dec_value (n : N) :
  digits_value 10 (List.map (fun c => Z.of_N c - 48) (dec n)) = Z.of_N n.
Proof.
  unfold dec. rewrite <- of_uint_value.
  change (Pos.of_uint (N.to_uint n)) with (N.of_uint (N.to_uint n)).
  rewrite DecimalN.Unsigned.of_to. reflexivity.
Qed.

Lemma dec_nonempty (n : N) : dec n <> [].
Proof.
  unfold dec. destruct n as [| p]; [discriminate |].
  intros Hnil.
  pose proof (dec_value (N.pos p)) as Hvalue. unfold dec in Hvalue.
  rewrite Hnil in Hvalue. discriminate.
Qed.

(** Printing and parsing agree: the key [Section<n>], with [n] printed in
    decimal, is a key of the pattern, its integer suffix is [n], and
    [parseInt] reads the printed [n] back as the Number of [n]. *)
Theorem printed_section_key (n : N) :
  matches_section_pattern (section_prefix ++ dec n) = true
  /\ integer_suffix (section_prefix ++ dec n) = Z.of_N n
  /\ parseInt (dec n) = to_number (Z.of_N n).
Proof.
  assert (Hskip : skipn 7 (section_prefix ++ dec n) = dec n) by reflexivity.
  split; [| split].
  - unfold matches_section_pattern. rewrite Hskip, dec_digits.
    rewrite startsWith_app.
    destruct (dec n) eqn:Hdec; [apply dec_nonempty in Hdec; contradiction |].
    reflexivity.
  - unfold integer_suffix. rewrite Hskip. apply dec_value.
  - rewrite parseInt_decimal.
    + rewrite dec_value. reflexivity.
    + apply dec_nonempty.
    + apply dec_digits.
Qed.

Section StableSort.
Context {A : Type} (comparefn : A -> A -> Num) (rank : A -> Z).

Lemma insert_sorted_rank (x : A) (l : list A) (r : Z) :
  ranks comparefn rank (x :: l) ->
  List.filter (fun y => rank y =? r) (insert_sorted comparefn x l)
  = List.filter (fun y => rank y =? r) (x :: l).
Proof.
  intros Hranks. induction l as [| y l IH].
  - reflexivity.
  - simpl insert_sorted.
    rewrite (Hranks x y) by (simpl; auto).
    destruct (Z.ltb_spec (rank y) (rank x)) as [Hlt | Hge]; [| reflexivity].
    assert (IH' : List.filter (fun y => rank y =? r) (insert_sorted comparefn x l)
                  = List.filter (fun y => rank y =? r) (x :: l)).
    { apply IH. intros u v Hu Hv. apply Hranks; simpl in *; intuition. }
    simpl in *. rewrite IH'.
    destruct (Z.eqb_spec (rank y) r), (Z.eqb_spec (rank x) r);
      try reflexivity; lia.
Qed.

Lemma sort_rank (l : list A) (r : Z) :
  ranks comparefn rank l ->
  List.filter (fun y => rank y =? r) (sort comparefn l)
  = List.filter (fun y => rank y =? r) l.
Proof.
  induction l as [| x l IH]; intros Hranks.
  - reflexivity.
  - simpl sort. rewrite insert_sorted_rank.
    + simpl. rewrite IH; [reflexivity |].
      intros u v Hu Hv. apply Hranks; right; assumption.
    + intros u v Hu Hv. apply Hranks.
      * destruct Hu as [-> | Hu]; [left; reflexivity | right].
        apply (Permutation_in _ (Permutation_sym (sort_perm comparefn l))).
        exact Hu.
      * destruct Hv as [-> | Hv]; [left; reflexivity | right].
        apply (Permutation_in _ (Permutation_sym (sort_perm comparefn l))).
        exact Hv.
Qed.
End StableSort.

(** The section sort is stable: keys of the pattern with the same integer
    suffix (such as Section1 and Section01) are displayed in the order the
    report has them. *)
Theorem equal_suffixes_keep_document_order (keys : list jsstring) (n : Z) :
  Forall (fun k => matches_section_pattern k = true
                   /\ integer_suffix k <= 2 ^ 53) keys ->
  List.filter (fun k => integer_suffix k =? n) (section_order keys)
  = List.filter (fun k => integer_suffix k =? n) keys.
Proof.
  intros Hkeys.
  rewrite section_order_of_pattern_keys.
  - apply sort_rank. apply pattern_keys_ranked. exact Hkeys.
  - revert Hkeys. apply List.Forall_impl. intros k Hk. tauto.
Qed.

(** Whatever the keys of the report are, the display order holds exactly
    the keys that start with the section prefix, each as often as the
    report has it: the sort loses and invents nothing, and a key without
    the prefix (such as metadata) is never displayed. *)
Theorem section_order_is_the_prefixed_keys (keys : list jsstring) :
  Permutation (List.filter (startsWith section_prefix) keys) (section_order keys)
  /\ forall k, In k (section_order keys)
               <-> In k keys /\ startsWith section_prefix k = true.
Proof.
  split.
  - apply sort_perm.
  - intros k. split.
    + intros Hk. unfold section_order in Hk.
      apply (Permutation_in _ (Permutation_sym (sort_perm compare_sections _)))
        in Hk.
      apply List.filter_In in Hk. exact Hk.
    + intros [Hin Hprefix]. unfold section_order.
      apply (Permutation_in _ (sort_perm compare_sections _)).
      apply List.filter_In. split; assumption.
Qed.

(** ** The header of a section and the legacy client *)

Lemma sequence_Throw {A : Type} (l : list (result A)) (e : Exn) :
  In (Throw e) l -> exists e', sequence l = Throw e'.
Proof.
  induction l as [| m l IH]; simpl.
  - contradiction.
  - intros [-> | Hin]; [eexists; reflexivity |].
    destruct m as [a | e0]; [| eexists; reflexivity].
    destruct (IH Hin) as [e' ->]. eexists; reflexivity.
Qed.

Section HeaderFacts.
Context `{Numbers} {engine : Engine}.

(** The header button of a displayed section toggles that very section: a
    click on it flips whether the section is open; and a closed section
    carries no table, only [false] in the place of its content. *)
Theorem header_click_toggles_its_section
    (entries : list (jsstring * Value)) (expanded : gset jsstring)
    (k : jsstring) (section : Value) (node : Node) :
  lookup_entry k entries = Some section ->
  render_section (VObject entries) expanded k = Ok node ->
  node <> NNull ->
  header_action node = Some (ToggleSection k)
  /\ (k ∈ apply_action (ToggleSection k) expanded <-> k ∉ expanded)
  /\ (k ∉ expanded -> section_body node = Some (NValue (VBool false))).
Proof.
  intros Hlookup Hnode Hshown.
  unfold render_section in Hnode. simpl in Hnode. rewrite Hlookup in Hnode.
  destruct (truthy section) eqn:Hsection; simpl in Hnode;
    [| injection Hnode as <-; contradiction].
  rewrite (get_of_truthy section (str "data")) in Hnode by assumption.
  destruct (truthy (get_opt section (str "data"))) eqn:Hdata; simpl in Hnode;
    [| injection Hnode as <-; contradiction].
  rewrite (get_of_truthy section (str "title")) in Hnode by assumption.
  unfold Object_keys in Hnode.
  destruct (Object_entries_of_truthy _ Hdata) as [fields Hfields].
  rewrite Hfields in Hnode.
  split; [| split].
  - destruct (bool_decide (k ∈ expanded)).
    + destruct (section_content section _) as [content | e];
        [injection Hnode as <-; reflexivity | discriminate].
    + injection Hnode as <-. reflexivity.
  - simpl. unfold toggleSection.
    destruct (decide (k ∈ expanded)); set_solver.
  - intros Hclosed. rewrite (bool_decide_eq_false_2 _ Hclosed) in Hnode.
    injection Hnode as <-. reflexivity.
Qed.

(** The name in the header is never empty: it is the product identifier of
    the first section when that is there and truthy, and "Unknown
    Compound" in every other case, a report without a first section
    included; computing it does not throw. *)
Theorem compoundName_always_shown (sdsData : Value) :
  truthy (compoundName sdsData) = true
  /\ (truthy (get_opt (get_opt (get_opt sdsData (str "Section1")) (str "data"))
                 (str "Product Identifier")) = false ->
      compoundName sdsData = VString (str "Unknown Compound")).
Proof.
  unfold compoundName, or_else.
  destruct (truthy (get_opt _ (str "Product Identifier"))) eqn:Hname.
  - split; [exact Hname | discriminate].
  - split; reflexivity.
Qed.

(** With a blank input the POST client issues no request, while the legacy
    client, which has no such test, sends its GET all the same. *)
Theorem blank_input_clients_differ
    (st : State) (lst : Legacy.State) (query : jsstring) :
  trim (smiles st) = [] -> Legacy.smiles lst = smiles st ->
  encodeURIComponent (smiles st) = Ok query ->
  snd (generateSDS_start st) = None
  /\ snd (Legacy.handleSubmit_start lst)
     = Some {| method := GET;
               url := Legacy.API_BASE ++ str "/api/sds?smiles=" ++ query;
               body := None |}.
Proof.
  intros Hblank Hsame Hquery. split.
  - unfold generateSDS_start. rewrite Hblank. reflexivity.
  - unfold Legacy.handleSubmit_start. rewrite Hsame, Hquery. reflexivity.
Qed.

(** The legacy display does not skip a section without [data]: listing the
    entries of the absent [data] throws, and with it the whole section
    loop. *)
Theorem legacy_display_throws_without_data
    (entries section : list (jsstring * Value)) (k : jsstring) :
  In k (List.map fst entries) ->
  lookup_entry k entries = Some (VObject section) ->
  lookup_entry (str "data") section = None ->
  Legacy.render_section (VObject entries) k = TypeError NullishToObject
  /\ exists e, Legacy.render_sections (VObject entries) = Throw e.
Proof.
  intros Hin Hsection Hdata.
  assert (Hthrow : Legacy.render_section (VObject entries) k
                   = TypeError NullishToObject).
  { unfold Legacy.render_section. simpl. rewrite Hsection. simpl.
    rewrite Hdata. reflexivity. }
  split; [exact Hthrow |].
  unfold Legacy.render_sections, Object_keys. simpl.
  apply (sequence_Throw _ (JsError (type_error_message NullishToObject))).
  apply List.in_map_iff. exists k. split; [exact Hthrow | exact Hin].
Qed.

(** The legacy table shows "Not available" for every falsy value, [false]
    and zero included, which the POST client prints as they are. *)
Theorem legacy_hides_falsy_values (value : Value) :
  truthy value = false ->
  Legacy.value_cell value = Ok (NValue (VString (str "Not available")))
  /\ renderValue (VBool false) = Ok (NText (str "false")).
Proof.
  intros Hfalsy. split; [| reflexivity].
  destruct value; simpl in Hfalsy; try discriminate;
    unfold Legacy.value_cell, or_else; simpl; rewrite ?Hfalsy; reflexivity.
Qed.
End HeaderFacts.

(** ** The display order beyond 2^53 *)

Lemma round_nonneg_range (z : Z) :
  0 <= z ->
  (exists m, round_nonneg z = Finite m /\ 0 <= m < 2 ^ 1024
             /\ (0 < z <-> 0 < m))
  \/ (round_nonneg z = Infinity false /\ 0 < z).
Proof.
  intros Hz. unfold round_nonneg.
  destruct (Z.ltb_spec z (2 ^ 53)) as [Hsmall | Hbig].
  - left. exists z. split; [reflexivity |]. split; [| tauto].
    split; [assumption |].
    apply Z.lt_trans with (2 ^ 53); [assumption |].
    apply Z.pow_lt_mono_r; lia.
  - assert (Hpos : 0 < z).
    { apply Z.lt_le_trans with (2 ^ 53); [apply Z.pow_pos_nonneg; lia | assumption]. }
    assert (Hlog : 53 <= Z.log2 z).
    { rewrite <- (Z.log2_pow2 53) by lia. apply Z.log2_le_mono. assumption. }
    set (e := Z.log2 z - 52).
    assert (He : 0 < 2 ^ e) by (apply Z.pow_pos_nonneg; lia).
    assert (Hq : 1 <= z / 2 ^ e).
    { apply Z.div_le_lower_bound; [assumption |].
      rewrite Z.mul_1_r.
      apply Z.le_trans with (2 ^ Z.log2 z).
      - apply Z.pow_le_mono_r; lia.
      - apply Z.log2_spec. assumption. }
    set (q' := if 2 * (z mod 2 ^ e) <? 2 ^ e then z / 2 ^ e
               else if 2 ^ e <? 2 * (z mod 2 ^ e) then z / 2 ^ e + 1
                    else if Z.even (z / 2 ^ e) then z / 2 ^ e
                         else z / 2 ^ e + 1).
    assert (Hq' : 1 <= q').
    { unfold q'.
      destruct (2 * (z mod 2 ^ e) <? 2 ^ e); [assumption |].
      destruct (2 ^ e <? 2 * (z mod 2 ^ e)); [lia |].
      destruct (Z.even (z / 2 ^ e)); lia. }
    assert (Hm : 0 < q' * 2 ^ e) by (apply Z.mul_pos_pos; lia).
    destruct (Z.ltb_spec (q' * 2 ^ e) (2 ^ 1024)) as [Hfinite | Hinf].
    + left. exists (q' * 2 ^ e). split; [reflexivity |]. split; [lia | tauto].
    + right. split; [reflexivity | assumption].
Qed.

Lemma to_number_nonneg (z : Z) : 0 <= z -> to_number z = round_nonneg z.
Proof.
  intros Hz. unfold to_number.
  destruct (Z.ltb_spec z 0); [lia | reflexivity].
Qed.

Lemma is_positive_to_number (z : Z) : is_positive (to_number z) = (0 <? z).
Proof.
  unfold to_number.
  destruct (Z.ltb_spec z 0) as [Hneg | Hnonneg].
  - destruct (round_nonneg_range (- z)) as [(m & -> & Hm & Hpos) | [-> _]];
      [lia | |].
    + simpl. destruct (Z.ltb_spec 0 (- m)), (Z.ltb_spec 0 z); lia || reflexivity.
    + simpl. destruct (Z.ltb_spec 0 z); lia || reflexivity.
  - destruct (round_nonneg_range z) as [(m & -> & Hm & Hpos) | [-> Hpos]];
      [assumption | |].
    + simpl. destruct (Z.ltb_spec 0 m), (Z.ltb_spec 0 z); lia || reflexivity.
    + simpl. destruct (Z.ltb_spec 0 z); lia || reflexivity.
Qed.

Lemma compare_sections_by_number (a b : jsstring) :
  matches_section_pattern a = true -> matches_section_pattern b = true ->
  is_positive (compare_sections a b)
  = (number_rank (suffix_number b) <? number_rank (suffix_number a)).
Proof.
  intros Ha Hb.
  destruct (pattern_key_parse a Ha) as (_ & Ha0 & Hpa).
  destruct (pattern_key_parse b Hb) as (_ & Hb0 & Hpb).
  unfold compare_sections, suffix_number. rewrite Hpa, Hpb.
  rewrite !to_number_nonneg by assumption.
  destruct (round_nonneg_range (integer_suffix a) Ha0)
    as [(x & -> & Hx & _) | [-> _]];
    destruct (round_nonneg_range (integer_suffix b) Hb0)
      as [(y & -> & Hy & _) | [-> _]]; simpl.
  - rewrite is_positive_to_number.
    destruct (Z.ltb_spec 0 (x - y)), (Z.ltb_spec y x); lia || reflexivity.
  - destruct (Z.ltb_spec (2 ^ 1024) x); lia || reflexivity.
  - destruct (Z.ltb_spec y (2 ^ 1024)); lia || reflexivity.
  - rewrite Z.ltb_irrefl. reflexivity.
Qed.

(** For keys of the pattern with suffixes of any size, the display order is
    a rearrangement of the keys in ascending order of the Number their
    suffix becomes. *)
Theorem sections_in_order_of_their_number (keys : list jsstring) :
  Forall (fun k => matches_section_pattern k = true) keys ->
  Permutation keys (section_order keys)
  /\ StronglySorted
       (fun a b => number_rank (suffix_number a) <= number_rank (suffix_number b))
       (section_order keys).
Proof.
  intros Hkeys. rewrite section_order_of_pattern_keys by assumption. split.
  - apply sort_perm.
  - apply (sort_sorted compare_sections
             (fun k => number_rank (suffix_number k))).
    intros x y Hx Hy. rewrite List.Forall_forall in Hkeys.
    apply compare_sections_by_number; apply Hkeys; assumption.
Qed.

(** ** The properties at concrete inputs *)

Lemma array_rendering_witness :
  exists lis,
    renderValue (VArray [VString (str "Flammable"); VString (str "Irritant")])
    = Ok (NElement (str "ul") (Some (str "list-disc list-inside space-y-1"))
            None None [NArray lis])
    /\ length lis = 2%nat
    /\ forall j v,
         nth_error [VString (str "Flammable"); VString (str "Irritant")] j = Some v ->
         exists r, renderValue v = Ok r
                   /\ nth_error lis j
                      = Some (NElement (str "li") (Some (str "text-sm"))
                                (Some (dec (N.of_nat j))) None [r]).
Proof.
  apply (proj2 (array_rendering
                  [VString (str "Flammable"); VString (str "Irritant")])).
  discriminate.
Defined.

Lemma nonempty_string_is_text_witness :
  renderValue (VString (str " ")) = Ok (NText (str " "))
  /\ renderValue (VString (str " ")) <> Ok not_available.
Proof.
  apply (nonempty_string_is_text (str " ")). discriminate.
Defined.


Lemma empty_input_issues_no_request_witness :
  generateSDS_start (setSmiles (str "   ") initial_state)
  = (setError (str "Please enter a SMILES string")
       (setSmiles (str "   ") initial_state), None)
  /\ forall fetch,
       generateSDS fetch (setSmiles (str "   ") initial_state)
       = (setError (str "Please enter a SMILES string")
            (setSmiles (str "   ") initial_state), []).
Proof.
  apply (proj1 (empty_input_issues_no_request
                  (setSmiles (str "   ") initial_state))).
  reflexivity.
Defined.

Lemma failed_generation_clears_report_witness :
  sds (fst (generateSDS_start
              (setSds (VObject sample_report) (setSmiles (str "CCO") initial_state))))
  = VNull
  /\ sds (generateSDS_settle (Ok sample_failure)
            (setSds (VObject sample_report) (setSmiles (str "CCO") initial_state)))
     = VNull.
Proof.
  destruct (failed_generation_clears_report
              (setSds (VObject sample_report) (setSmiles (str "CCO") initial_state))
              (setSds (VObject sample_report) (setSmiles (str "CCO") initial_state))
              (Ok sample_failure)) as (Hstart & Hsettle & _).
  - vm_compute. discriminate.
  - reflexivity.
  - split; assumption.
Defined.

Lemma error_body_or_fallback_witness :
  error (generateSDS_settle (Ok sample_failure) initial_state)
  = str "Server error: 500"
  /\ Legacy.error (Legacy.handleSubmit_settle (Ok sample_failure)
                     Legacy.initial_state)
     = str "Failed to fetch SDS".
Proof.
  destruct (error_body_or_fallback sample_failure initial_state
              Legacy.initial_state) as [_ Hfallback].
  - reflexivity.
  - destruct (Hfallback (JsError (str "Unexpected token <")) eq_refl)
      as (Hpost & _ & Hlegacy).
    split; [exact Hpost | exact Hlegacy].
Defined.

(** C6 as stated fails for the legacy client: on a response that is not a
    2xx one and whose body is not JSON it shows "Failed to fetch SDS",
    which does not contain the status code. *)
Lemma legacy_fallback_has_no_status_code :
  ~ (forall (response : Response) (lst : Legacy.State),
       ok response = false ->
       (exists e, json response = Throw e) ->
       includes (dec (status response))
         (Legacy.error (Legacy.handleSubmit_settle (Ok response) lst)) = true).
Proof.
  intros Hclaim.
  specialize (Hclaim sample_failure Legacy.initial_state eq_refl).
  assert (Hincludes :
    includes (dec (status sample_failure))
      (Legacy.error (Legacy.handleSubmit_settle (Ok sample_failure)
                       Legacy.initial_state)) = true).
  { apply Hclaim. eexists; reflexivity. }
  vm_compute in Hincludes. discriminate.
Qed.

Lemma expandAll_opens_the_displayed_sections_witness :
  exists opened,
    expandAllSections (VObject [(str "sds", VObject sample_report)]) = Ok opened
    /\ forall k, k ∈ opened <-> In k (section_order (List.map fst sample_report)).
Proof.
  apply (expandAll_opens_the_displayed_sections
           (VObject [(str "sds", VObject sample_report)]) sample_report).
  reflexivity.
Defined.

Lemma string_citations_throw_witness :
  render_section (VObject sample_string_citations) initial_expanded (str "Section1")
  = TypeError (NotAFunction (str "join")).
Proof.
  apply (string_citations_throw sample_string_citations initial_expanded
           (str "Section1")
           [(str "Product Identifier", VString (str "Ethanol"))]
           [(str "title", VString (str "Identification"));
            (str "data", VObject [(str "Product Identifier", VString (str "Ethanol"))]);
            (str "data_sources", VString (str "PubChem"))]
           80%N (str "ubChem")).
  - reflexivity.
  - reflexivity.
  - reflexivity.
  - unfold initial_expanded. set_solver.
Defined.

Lemma successful_generation_shows_report_witness :
  generateSDS (fun _ => Ok sample_success) (setSmiles (str " CCO ") initial_state)
  = (setLoading false
       (setError []
          (setSds (VObject [(str "sds", VObject sample_report)])
             (setSmiles (str " CCO ") initial_state))),
     [{| method := POST; url := API_BASE ++ str "/api/sds";
         body := smiles_body (str "CCO") |}]).
Proof.
  apply (successful_generation_shows_report
           (setSmiles (str " CCO ") initial_state)
           (fun _ => Ok sample_success) sample_success
           (VObject [(str "sds", VObject sample_report)])).
  - vm_compute. discriminate.
  - reflexivity.
  - reflexivity.
  - reflexivity.
Defined.

Lemma null_error_body_shows_type_error_witness :
  error (generateSDS_settle
           (Ok {| status := 500; json := Ok VNull; blob := Ok [] |})
           initial_state)
  = str "Cannot read properties of null (reading 'error')".
Proof.
  exact (null_error_body_shows_type_error
           {| status := 500; json := Ok VNull; blob := Ok [] |} initial_state
           eq_refl eq_refl).
Defined.

Lemma error_body_without_message_shows_status_witness :
  error (generateSDS_settle
           (Ok {| status := 404; json := Ok (VObject []); blob := Ok [] |})
           initial_state)
  = str "Server error: 404".
Proof.
  apply (error_body_without_message_shows_status
           {| status := 404; json := Ok (VObject []); blob := Ok [] |}
           initial_state []); reflexivity.
Defined.

Lemma late_report_survives_clear_witness :
  sds (clearForm (setSmiles (str "CCO") initial_state)) = VNull
  /\ sds (generateSDS_settle (Ok sample_success)
            (clearForm (setSmiles (str "CCO") initial_state)))
     = VObject [(str "sds", VObject sample_report)].
Proof.
  apply (late_report_survives_clear sample_success
           (VObject [(str "sds", VObject sample_report)])
           (setSmiles (str "CCO") initial_state)); reflexivity.
Defined.

Lemma failed_validation_disables_generation_witness :
  validation (validateSmiles_settle (Throw (JsError (str "Failed to fetch")))
                (setSmiles (str "CCO") initial_state))
  = VObject [(str "valid", VBool false);
             (str "error", VString (str "Validation failed"))]
  /\ generate_disabled
       (validateSmiles_settle (Throw (JsError (str "Failed to fetch")))
          (setSmiles (str "CCO") initial_state)) = true.
Proof.
  apply (failed_validation_disables_generation
           (Throw (JsError (str "Failed to fetch")))
           (setSmiles (str "CCO") initial_state)
           (JsError (str "Failed to fetch"))).
  reflexivity.
Defined.

Lemma invalid_format_issues_no_request_witness :
  downloadFile_start (str "pdf") (setSmiles (str "CCO") initial_state)
  = (setDownloadingFormat None
       (setError (str "Download failed: Invalid format")
          (setSmiles (str "CCO") initial_state)), None).
Proof.
  apply (invalid_format_issues_no_request (str "pdf")
           (setSmiles (str "CCO") initial_state));
    vm_compute; discriminate.
Defined.

Lemma equal_suffixes_keep_document_order_witness :
  List.filter (fun k => integer_suffix k =? 1)
    (section_order [str "Section01"; str "Section2"; str "Section1"])
  = [str "Section01"; str "Section1"].
Proof.
  rewrite (equal_suffixes_keep_document_order
             [str "Section01"; str "Section2"; str "Section1"] 1).
  - reflexivity.
  - repeat constructor; vm_compute; congruence.
Defined.

Lemma header_click_toggles_its_section_witness :
  exists node,
    render_section (VObject sample_report) initial_expanded (str "Section10")
    = Ok node
    /\ header_action node = Some (ToggleSection (str "Section10"))
    /\ section_body node = Some (NValue (VBool false)).
Proof.
  destruct (render_section_cases sample_report initial_expanded
              (str "Section10")
              (VObject [(str "title", VString (str "Stability and Reactivity"));
                        (str "data",
                         VObject [(str "Reactivity", VString (str "Stable"))])])
              eq_refl) as [_ Hshow].
  destruct Hshow as [children Hnode]; [reflexivity | left; reflexivity |].
  eexists. split; [exact Hnode |].
  destruct (header_click_toggles_its_section sample_report initial_expanded
              (str "Section10") _ _ eq_refl Hnode) as (Haction & _ & Hbody).
  - discriminate.
  - split; [exact Haction |]. apply Hbody.
    unfold initial_expanded. intros Hin.
    apply elem_of_union in Hin as [Hin | Hin];
      apply elem_of_singleton in Hin; vm_compute in Hin; discriminate.
Defined.

Lemma blank_input_clients_differ_witness :
  snd (generateSDS_start (setSmiles (str "  ") initial_state)) = None
  /\ snd (Legacy.handleSubmit_start
            {| Legacy.smiles := str "  "; Legacy.sds := VNull;
               Legacy.loading := false; Legacy.error := [] |})
     = Some {| method := GET;
               url := Legacy.API_BASE ++ str "/api/sds?smiles=%20%20";
               body := None |}.
Proof.
  apply (blank_input_clients_differ (setSmiles (str "  ") initial_state)
           {| Legacy.smiles := str "  "; Legacy.sds := VNull;
              Legacy.loading := false; Legacy.error := [] |} (str "%20%20"));
    reflexivity.
Defined.

Lemma legacy_display_throws_without_data_witness :
  Legacy.render_section (VObject sample_report) (str "Section2")
  = TypeError NullishToObject
  /\ exists e, Legacy.render_sections (VObject sample_report) = Throw e.
Proof.
  apply (legacy_display_throws_without_data sample_report
           [(str "title", VString (str "Composition"))] (str "Section2")).
  - simpl. auto.
  - reflexivity.
  - reflexivity.
Defined.

Lemma legacy_hides_falsy_values_witness :
  Legacy.value_cell (@VNumber integer_numbers 0)
  = Ok (NValue (VString (str "Not available")))
  /\ renderValue (VBool false) = Ok (NText (str "false")).
Proof.
  apply (legacy_hides_falsy_values (@VNumber integer_numbers 0)). reflexivity.
Defined.

Lemma sections_in_order_of_their_number_witness :
  section_order [str "Section9007199254740993"; str "Section2";
                 str "Section9007199254740992"]
  = [str "Section2"; str "Section9007199254740993";
     str "Section9007199254740992"]
  /\ StronglySorted
       (fun a b => number_rank (suffix_number a) <= number_rank (suffix_number b))
       (section_order [str "Section9007199254740993"; str "Section2";
                       str "Section9007199254740992"]).
Proof.
  split; [vm_compute; reflexivity |].
  apply (sections_in_order_of_their_number
           [str "Section9007199254740993"; str "Section2";
            str "Section9007199254740992"]).
  repeat constructor.
Defined.

Lemma unprintable_citation_throws_witness :
  render_section
    (VObject
       [(str "Section1",
         VObject [(str "data", VObject [(str "Name", VString (str "Ethanol"))]);
                  (str "data_sources",
                   VArray [VObject [(str "toString", @VNumber integer_numbers 1)]])])])
    initial_expanded (str "Section1")
  = TypeError NoPrimitiveValue.
Proof.
  apply (unprintable_citation_throws
           [(str "Section1",
             VObject [(str "data", VObject [(str "Name", VString (str "Ethanol"))]);
                      (str "data_sources",
                       VArray [VObject [(str "toString", @VNumber integer_numbers 1)]])])]
           initial_expanded (str "Section1")
           [(str "Name", VString (str "Ethanol"))]
           [(str "data", VObject [(str "Name", VString (str "Ethanol"))]);
            (str "data_sources",
             VArray [VObject [(str "toString", @VNumber integer_numbers 1)]])]
           [(str "toString", @VNumber integer_numbers 1)]
           (@VNumber integer_numbers 1) []).
  - reflexivity.
  - reflexivity.
  - reflexivity.
  - reflexivity.
  - unfold initial_expanded. set_solver.
Defined.
